(** * Mario: collision handlers and delayed actions of [app.py]

    A shallow embedding of the collision core of [MarioApp]: the handlers
    registered by [_setup_collision_handlers], the level transition
    ([goto_next_level], [reset_world]) and the two delayed callbacks
    ([remove_invincibility], [unpress_switch]) that the handlers hand to
    [self._master.after].

    Python objects are compared by identity, so every entity carries the
    identity of the object it stands for; attributes that the handlers
    assign after construction ([block._switch], [mob.set_tempo]) live in
    per-object attribute maps of the application state. *)

From Stdlib Require Import ZArith List Bool String Ascii Lia.
From stdpp Require Import base option gmap strings list.
Import ListNotations.

Open Scope string_scope.
Open Scope list_scope.
Open Scope Z_scope.

(** ** Constants of the module *)

Definition BLOCK_SIZE : Z := 2 ^ 4.
Definition JUMP_SIZE : Z := 10.

Inductive timing_key := invincibility_key | switch_key.

Definition TIMING (k : timing_key) : Z :=
  match k with
  | invincibility_key => 10000
  | switch_key => 1000
  end.

(** The builder tables: level-file character to entity identifier. *)
Definition BLOCKS : list (ascii * string) :=
  [ ("#"%char, "brick"); ("%"%char, "brick_base"); ("?"%char, "mystery_empty");
    ("$"%char, "mystery_coin"); ("^"%char, "cube"); ("b"%char, "bounce_block");
    ("I"%char, "flag"); ("="%char, "tunnel"); ("S"%char, "switch") ].

Definition ITEMS : list (ascii * string) :=
  [ ("C"%char, "coin"); ("*"%char, "star") ].

Definition MOBS : list (ascii * string) :=
  [ ("&"%char, "cloud"); ("@"%char, "mushroom") ].

(** ** Entities *)

(** Identity of a Python object. *)
Definition ref := nat.

(** The block classes: [Block] and [MysteryBlock] come from [game.block],
    the others are declared at the end of [app.py]. *)
Inductive block_class :=
| Block_ (block_id : string)
| MysteryBlock_ (drop : option string) (drop_range : Z * Z)
| BounceBlock
| Flag
| Tunnel
| Switch
| Switch_Pressed.

Record block := { b_ref : ref; b_class : block_class }.

Record mob := { m_ref : ref; m_id : string; m_tempo : Z }.

Record item := { i_ref : ref; i_id : string; i_value : Z }.

Inductive thing :=
| ThePlayer
| ABlock (b : block)
| AMob (m : mob)
| AnItem (i : item).

(** Object identity: the player is a single object, every other entity is
    told apart by its reference. *)
Definition ident (t : thing) : option ref :=
  match t with
  | ThePlayer => None
  | ABlock b => Some (b_ref b)
  | AMob m => Some (m_ref m)
  | AnItem i => Some (i_ref i)
  end.

Definition same_object (t u : thing) : bool := bool_decide (ident t = ident u).

(** ** Player *)

(** Modelled from the spec: class [Player], imported from [player] and
    defined outside [app.py].  Section 3 of the specification gives its
    fields and the clamping of health to [0, max_health]; death is health
    at or below zero. *)
Record Player := {
  p_health : Z;
  p_max_health : Z;
  p_score : Z;
  p_jumping : bool;
  p_velocity : Z * Z
}.

Definition get_health (p : Player) : Z := p_health p.
Definition get_max_health (p : Player) : Z := p_max_health p.
Definition get_score (p : Player) : Z := p_score p.
Definition is_jumping (p : Player) : bool := p_jumping p.
Definition get_velocity (p : Player) : Z * Z := p_velocity p.

Definition clamp_health (max_health h : Z) : Z :=
  if h <? 0 then 0 else if max_health <? h then max_health else h.

Definition change_health (change : Z) (p : Player) : Player :=
  {| p_health := clamp_health (p_max_health p) (p_health p + change);
     p_max_health := p_max_health p;
     p_score := p_score p;
     p_jumping := p_jumping p;
     p_velocity := p_velocity p |}.

Definition change_score (change : Z) (p : Player) : Player :=
  {| p_health := p_health p;
     p_max_health := p_max_health p;
     p_score := p_score p + change;
     p_jumping := p_jumping p;
     p_velocity := p_velocity p |}.

Definition set_jumping (jumping : bool) (p : Player) : Player :=
  {| p_health := p_health p;
     p_max_health := p_max_health p;
     p_score := p_score p;
     p_jumping := jumping;
     p_velocity := p_velocity p |}.

Definition set_velocity (v : Z * Z) (p : Player) : Player :=
  {| p_health := p_health p;
     p_max_health := p_max_health p;
     p_score := p_score p;
     p_jumping := p_jumping p;
     p_velocity := v |}.

Definition is_dead (p : Player) : bool := p_health p <=? 0.

(** ** World *)

(** Modelled from the spec: class [World], imported from [game.world] and
    defined outside [app.py].  Section 3 describes it as the collection of
    live entities with their positions; removal is idempotent (removing an
    entity that is not there is a no-op), and the position of an entity is
    the one it was added at. *)
Record World := { w_things : list (thing * (Z * Z)) }.

Definition add_thing (t : thing) (x y : Z) (w : World) : World :=
  {| w_things := w_things w ++ [(t, (x, y))] |}.

Definition add_block (b : block) (x y : Z) (w : World) : World :=
  add_thing (ABlock b) x y w.

Definition add_player (x y mass : Z) (w : World) : World :=
  add_thing ThePlayer x y w.

Definition remove_thing (t : thing) (w : World) : World :=
  {| w_things := filter (fun e => same_object (fst e) t = false) (w_things w) |}.

Definition remove_block (t : thing) (w : World) : World := remove_thing t w.
Definition remove_mob (m : mob) (w : World) : World := remove_thing (AMob m) w.
Definition remove_item (i : item) (w : World) : World := remove_thing (AnItem i) w.

Fixpoint position_in (things : list (thing * (Z * Z))) (t : thing) : option (Z * Z) :=
  match things with
  | [] => None
  | (u, p) :: rest => if same_object u t then Some p else position_in rest t
  end.

(** [entity.get_position()]; [None] stands for the failure of the call on
    an entity that has no body in the world. *)
Definition get_position (w : World) (t : thing) : option (Z * Z) :=
  position_in (w_things w) t.

(** ** Collaborators outside [app.py]

    What the handlers call but do not define: the direction resolver of
    [game.util], the spatial query and the loader of worlds, the hooks of
    the library classes, and the answer to the restart prompt. *)
Class External := {
  (** [get_collision_direction(me, them)]: one of "L", "R", "A", "B". *)
  get_collision_direction : World -> thing -> thing -> string;
  (** whether an entity at a position is reported by
      [world.get_things_in_range(x, y, max_distance)] *)
  in_range : thing -> Z * Z -> Z -> Z -> Z -> bool;
  (** [load_world(builder, filename)] *)
  load_world : string -> World;
  (** [MysteryBlock.get_id()] and [MysteryBlock.on_hit(event, (world, player))] *)
  mystery_id : string;
  mystery_on_hit : block -> World * Player -> World * Player;
  (** [Mob.on_hit(event, (world, player))] of the library mobs *)
  mob_on_hit : mob -> World * Player -> World * Player;
  (** [DroppedItem.collect(player)] *)
  collect : item -> Player -> Player;
  (** [messagebox.askquestion(...) == 'yes'] in [death] *)
  askquestion_yes : bool
}.

(** ** Delayed callbacks and the [after] queue of the Tk root *)

Inductive action :=
| remove_invincibility_cb
| unpress_switch_cb (blk : block) (x y : Z) (pressed_switch : block)
    (positions : list (Z * Z)).

Record Tk := {
  destroyed : bool;
  clock : Z;
  pending : list (Z * action)
}.

(** A new callback goes behind every pending one that is due no later, so
    callbacks with the same deadline run in the order they were scheduled. *)
Fixpoint enqueue (t : Z * action) (q : list (Z * action)) : list (Z * action) :=
  match q with
  | [] => [t]
  | u :: rest => if fst u <=? fst t then u :: enqueue t rest else t :: q
  end.

Definition after (ms : Z) (cb : action) (m : Tk) : Tk :=
  {| destroyed := destroyed m;
     clock := clock m;
     pending := enqueue (clock m + ms, cb) (pending m) |}.

Definition destroy (m : Tk) : Tk :=
  {| destroyed := true; clock := clock m; pending := pending m |}.

(** ** Application state *)

Record MarioApp := {
  config : gmap string (list string);
  current_level : string;
  health : Z;
  x_start : Z;
  y_start : Z;
  mass : Z;
  max_velocity : Z;
  _master : Tk;
  invincibility : bool;
  _on_tunnel : bool;
  _switch : bool;
  _player : Player;
  _world : World;
  (** instance attribute [_switch] of the switch objects that have one;
      without it the class attribute [_switch = False] is read *)
  switch_attr : gmap ref bool;
  (** tempo of the mobs whose [set_tempo] was called *)
  tempo_attr : gmap ref Z;
  (** identity of the next object to be constructed *)
  next_ref : ref
}.

Definition with_master (m : Tk) (a : MarioApp) : MarioApp :=
  {| config := config a; current_level := current_level a; health := health a;
     x_start := x_start a; y_start := y_start a; mass := mass a;
     max_velocity := max_velocity a; _master := m;
     invincibility := invincibility a; _on_tunnel := _on_tunnel a;
     _switch := _switch a; _player := _player a; _world := _world a;
     switch_attr := switch_attr a; tempo_attr := tempo_attr a;
     next_ref := next_ref a |}.

Definition with_invincibility (v : bool) (a : MarioApp) : MarioApp :=
  {| config := config a; current_level := current_level a; health := health a;
     x_start := x_start a; y_start := y_start a; mass := mass a;
     max_velocity := max_velocity a; _master := _master a;
     invincibility := v; _on_tunnel := _on_tunnel a;
     _switch := _switch a; _player := _player a; _world := _world a;
     switch_attr := switch_attr a; tempo_attr := tempo_attr a;
     next_ref := next_ref a |}.

Definition with_on_tunnel (v : bool) (a : MarioApp) : MarioApp :=
  {| config := config a; current_level := current_level a; health := health a;
     x_start := x_start a; y_start := y_start a; mass := mass a;
     max_velocity := max_velocity a; _master := _master a;
     invincibility := invincibility a; _on_tunnel := v;
     _switch := _switch a; _player := _player a; _world := _world a;
     switch_attr := switch_attr a; tempo_attr := tempo_attr a;
     next_ref := next_ref a |}.

Definition with_switch (v : bool) (a : MarioApp) : MarioApp :=
  {| config := config a; current_level := current_level a; health := health a;
     x_start := x_start a; y_start := y_start a; mass := mass a;
     max_velocity := max_velocity a; _master := _master a;
     invincibility := invincibility a; _on_tunnel := _on_tunnel a;
     _switch := v; _player := _player a; _world := _world a;
     switch_attr := switch_attr a; tempo_attr := tempo_attr a;
     next_ref := next_ref a |}.

Definition with_player (p : Player) (a : MarioApp) : MarioApp :=
  {| config := config a; current_level := current_level a; health := health a;
     x_start := x_start a; y_start := y_start a; mass := mass a;
     max_velocity := max_velocity a; _master := _master a;
     invincibility := invincibility a; _on_tunnel := _on_tunnel a;
     _switch := _switch a; _player := p; _world := _world a;
     switch_attr := switch_attr a; tempo_attr := tempo_attr a;
     next_ref := next_ref a |}.

Definition with_world (w : World) (a : MarioApp) : MarioApp :=
  {| config := config a; current_level := current_level a; health := health a;
     x_start := x_start a; y_start := y_start a; mass := mass a;
     max_velocity := max_velocity a; _master := _master a;
     invincibility := invincibility a; _on_tunnel := _on_tunnel a;
     _switch := _switch a; _player := _player a; _world := w;
     switch_attr := switch_attr a; tempo_attr := tempo_attr a;
     next_ref := next_ref a |}.

Definition with_switch_attr (h : gmap ref bool) (a : MarioApp) : MarioApp :=
  {| config := config a; current_level := current_level a; health := health a;
     x_start := x_start a; y_start := y_start a; mass := mass a;
     max_velocity := max_velocity a; _master := _master a;
     invincibility := invincibility a; _on_tunnel := _on_tunnel a;
     _switch := _switch a; _player := _player a; _world := _world a;
     switch_attr := h; tempo_attr := tempo_attr a;
     next_ref := next_ref a |}.

Definition with_tempo_attr (h : gmap ref Z) (a : MarioApp) : MarioApp :=
  {| config := config a; current_level := current_level a; health := health a;
     x_start := x_start a; y_start := y_start a; mass := mass a;
     max_velocity := max_velocity a; _master := _master a;
     invincibility := invincibility a; _on_tunnel := _on_tunnel a;
     _switch := _switch a; _player := _player a; _world := _world a;
     switch_attr := switch_attr a; tempo_attr := h;
     next_ref := next_ref a |}.

Definition with_next_ref (n : ref) (a : MarioApp) : MarioApp :=
  {| config := config a; current_level := current_level a; health := health a;
     x_start := x_start a; y_start := y_start a; mass := mass a;
     max_velocity := max_velocity a; _master := _master a;
     invincibility := invincibility a; _on_tunnel := _on_tunnel a;
     _switch := _switch a; _player := _player a; _world := _world a;
     switch_attr := switch_attr a; tempo_attr := tempo_attr a;
     next_ref := n |}.

(** ** Attribute access *)

(** [block._switch]: the classes [Switch] and [Switch_Pressed] declare the
    class attribute [_switch = False]; on any other class the access
    raises [AttributeError], rendered as [None]. *)
Definition read_switch (b : block) (a : MarioApp) : option bool :=
  match b_class b with
  | Switch | Switch_Pressed => Some (default false (switch_attr a !! b_ref b))
  | _ => None
  end.

(** [block._switch = v] *)
Definition write_switch (b : block) (v : bool) (a : MarioApp) : MarioApp :=
  with_switch_attr (<[b_ref b := v]> (switch_attr a)) a.

Definition get_tempo (m : mob) (a : MarioApp) : Z :=
  default (m_tempo m) (tempo_attr a !! m_ref m).

Definition set_tempo (m : mob) (tempo : Z) (a : MarioApp) : MarioApp :=
  with_tempo_attr (<[m_ref m := tempo]> (tempo_attr a)) a.

(** ** Python string methods used on configuration lines *)

(** [s.startswith(p)] *)
Definition startswith (s p : string) : bool := String.prefix p s.

(** [s.split(sep)[-1]] for a one-character separator: what follows the
    last occurrence of [sep], the whole of [s] when there is none. *)
Fixpoint split_last (sep : ascii) (s : string) : string :=
  match s with
  | EmptyString => EmptyString
  | String c rest =>
      if existsb (Ascii.eqb sep) (list_ascii_of_string rest)
      then split_last sep rest
      else if Ascii.eqb c sep then rest else s
  end.

Fixpoint lstrip (c : ascii) (s : string) : string :=
  match s with
  | EmptyString => EmptyString
  | String d rest => if Ascii.eqb d c then lstrip c rest else s
  end.

Definition string_rev (s : string) : string :=
  string_of_list_ascii (rev (list_ascii_of_string s)).

(** [s.strip(c)] for a one-character [c] *)
Definition strip (c : ascii) (s : string) : string :=
  string_rev (lstrip c (string_rev (lstrip c s))).

(** ** Methods of [MarioApp] *)

Section App.
Context {E : External}.

(** [thing.get_id()] of the library classes and of the classes of [app.py];
    the player is never asked for its identifier. *)
Definition block_get_id (b : block) : string :=
  match b_class b with
  | Block_ block_id => block_id
  | MysteryBlock_ _ _ => mystery_id
  | BounceBlock => "bounce"
  | Flag => "flag"
  | Tunnel => "tunnel"
  | Switch => "switch"
  | Switch_Pressed => "switch_pressed"
  end.

Definition get_id (t : thing) : option string :=
  match t with
  | ThePlayer => None
  | ABlock b => Some (block_get_id b)
  | AMob m => Some (m_id m)
  | AnItem i => Some (i_id i)
  end.

(** Modelled from the spec: [World.get_things_in_range] of [game.world]:
    the entities of the world, in the order the world holds them, that the
    spatial query reports for the point and the distance. *)
Definition get_things_in_range (w : World) (x y max_distance : Z) : list thing :=
  fst <$> filter (fun e => in_range (fst e) (snd e) x y max_distance = true) (w_things w).

(** Modelled from the spec: [Block.on_hit] of [game.block]: the hook of the
    base class has no effect; only [MysteryBlock] overrides it, and none of
    the classes of [app.py] does. *)
Definition block_on_hit (b : block) (a : MarioApp) : MarioApp :=
  match b_class b with
  | MysteryBlock_ _ _ =>
      let r := mystery_on_hit b (_world a, _player a) in
      with_player (snd r) (with_world (fst r) a)
  | _ => a
  end.

(** The status bar and the high-score list are display only. *)
Definition update_status_bar (a : MarioApp) : MarioApp := a.
Definition highscore (a : MarioApp) : MarioApp := a.

(** Construction of a block object: a new identity. *)
Definition new_block (c : block_class) (a : MarioApp) : block * MarioApp :=
  ({| b_ref := next_ref a; b_class := c |}, with_next_ref (S (next_ref a)) a).

Definition menu_exit (a : MarioApp) : MarioApp :=
  with_master (destroy (_master a)) a.

(** [messagebox.showinfo] returns "ok", so the root is destroyed. *)
Definition game_end (a : MarioApp) : MarioApp :=
  with_master (destroy (_master a)) a.

Definition reset_world (new_level : string) (a : MarioApp) : MarioApp :=
  if String.eqb new_level "END" then game_end a
  else with_world (add_player (x_start a) (y_start a) (mass a) (load_world new_level)) a.

(** The loop body of [goto_next_level]. *)
Definition goto_line (type : string) (a : MarioApp) (i : string) : MarioApp :=
  if startswith i type then reset_world (strip " " (split_last ":" i)) a else a.

(** [None] is the [KeyError] of [self.config[...]]. *)
Definition goto_next_level (type : string) (a : MarioApp) : option (MarioApp) :=
  let a := highscore a in
  match config a !! ("==" +:+ current_level a +:+ "==") with
  | None => None
  | Some lines => Some (fold_left (goto_line type) lines a)
  end.

Definition set_invincibility (a : MarioApp) : MarioApp :=
  let a := with_invincibility true a in
  let a := update_status_bar a in
  with_master (after (TIMING invincibility_key) remove_invincibility_cb (_master a)) a.

Definition remove_invincibility (a : MarioApp) : MarioApp :=
  update_status_bar (with_invincibility false a).

Definition _set_on_tunnel (is_on : bool) (a : MarioApp) : MarioApp :=
  with_on_tunnel is_on a.

Definition menu_reset_level (a : MarioApp) : MarioApp :=
  let a := with_player (change_health (health a) (_player a)) a in
  let a := with_player (change_score (- get_score (_player a)) (_player a)) a in
  let a := update_status_bar a in
  reset_world (current_level a) a.

Definition death (a : MarioApp) : MarioApp :=
  if askquestion_yes then menu_reset_level a else menu_exit a.

(** The loop of [unpress_switch]: one new brick per stored position. *)
Fixpoint restore_bricks (positions : list (Z * Z)) (a : MarioApp) : MarioApp :=
  match positions with
  | [] => a
  | i :: rest =>
      let '(brick, a) := new_block (Block_ "brick") a in
      restore_bricks rest (with_world (add_block brick (fst i) (snd i) (_world a)) a)
  end.

Definition unpress_switch (blk : block) (x y : Z) (pressed_switch : block)
    (positions : list (Z * Z)) (a : MarioApp) : MarioApp :=
  let a := write_switch blk false a in
  let a := restore_bricks positions a in
  let a := with_world (remove_block (ABlock pressed_switch) (_world a)) a in
  with_world (add_block blk x y (_world a)) a.

Definition _jump (a : MarioApp) : MarioApp :=
  if negb (is_jumping (_player a))
  then with_player
         (set_velocity (fst (get_velocity (_player a)), - BLOCK_SIZE * JUMP_SIZE) (_player a)) a
  else a.

(** ** The event loop *)

Definition run_action (cb : action) (a : MarioApp) : MarioApp :=
  match cb with
  | remove_invincibility_cb => remove_invincibility a
  | unpress_switch_cb blk x y pressed_switch positions =>
      unpress_switch blk x y pressed_switch positions a
  end.

Fixpoint fire (due : list (Z * action)) (a : MarioApp) : MarioApp :=
  match due with
  | [] => a
  | t :: rest => fire rest (run_action (snd t) a)
  end.

(** [elapsed] milliseconds of the main loop: the callbacks whose deadline
    has come leave the queue and run, earliest deadline first; a destroyed
    root runs nothing. *)
Definition tick (elapsed : Z) (a : MarioApp) : MarioApp :=
  if destroyed (_master a) then a
  else
    let now := clock (_master a) + elapsed in
    let due := List.filter (fun t => fst t <=? now) (pending (_master a)) in
    let later := List.filter (fun t => now <? fst t) (pending (_master a)) in
    fire due (with_master {| destroyed := false; clock := now; pending := later |} a).


(** ** Collision handlers *)

Definition _handle_mob_collide_block (m : mob) (blk : block) (a : MarioApp)
    : MarioApp * bool :=
  if String.eqb (m_id m) "fireball" then
    let a := if String.eqb (block_get_id blk) "brick"
             then with_world (remove_block (ABlock blk) (_world a)) a else a in
    (with_world (remove_mob m (_world a)) a, true)
  else if String.eqb (m_id m) "mushroom" then
    let d := get_collision_direction (_world a) (ABlock blk) (AMob m) in
    (if String.eqb d "R" || String.eqb d "L"
     then set_tempo m (- get_tempo m a) a else a, true)
  else if String.eqb (block_get_id blk) "switch_pressed" then (a, false)
  else (a, true).

Definition _handle_player_collide_item (dropped_item : item) (a : MarioApp)
    : MarioApp * bool :=
  let a := if String.eqb (i_id dropped_item) "star" then set_invincibility a else a in
  let a := with_player (collect dropped_item (_player a)) a in
  let a := with_world (remove_item dropped_item (_world a)) a in
  (update_status_bar a, false).

(** The loop over [remove] in the switch branch: the player is skipped,
    an entity whose identifier is "brick" has its position stored and is
    removed. *)
Fixpoint clear_bricks (remove : list thing) (w : World) (positions : list (Z * Z))
    : option (World * list (Z * Z)) :=
  match remove with
  | [] => Some (w, positions)
  | i :: rest =>
      if same_object i ThePlayer then clear_bricks rest w positions
      else if bool_decide (get_id i = Some "brick") then
        match get_position w i with
        | None => None
        | Some p => clear_bricks rest (remove_block i w) (positions ++ [p])
        end
      else clear_bricks rest w positions
  end.

(** The body of the branch taken on landing on a switch that is not
    switched. *)
Definition press_switch (blk : block) (a : MarioApp) : option (MarioApp * bool) :=
  let a := with_switch true a in
  match get_position (_world a) (ABlock blk) with
  | None => None
  | Some (x, y) =>
      let remove := get_things_in_range (_world a) x y (BLOCK_SIZE * 10) in
      match clear_bricks remove (_world a) [] with
      | None => None
      | Some (w, positions) =>
          let a := with_world w a in
          let a := write_switch blk true a in
          let a := with_world (remove_block (ABlock blk) (_world a)) a in
          let '(pressed_switch, a) := new_block Switch_Pressed a in
          let a := with_world (add_block pressed_switch x y (_world a)) a in
          let a := with_master
                     (after (TIMING switch_key)
                        (unpress_switch_cb blk x y pressed_switch positions)
                        (_master a)) a in
          Some (a, true)
      end
  end.

Definition _handle_player_collide_block (blk : block) (a : MarioApp)
    : option (MarioApp * bool) :=
  let direction a := get_collision_direction (_world a) (ABlock blk) ThePlayer in
  let a := if String.eqb (direction a) "B"
           then with_player (set_jumping false (_player a)) a else a in
  let a := block_on_hit blk a in
  let a := if String.eqb (block_get_id blk) "bounce_block" then _jump a else a in
  if String.eqb (block_get_id blk) "tunnel" && String.eqb (direction a) "B" then
    Some (_set_on_tunnel true a, true)
  else if String.eqb (block_get_id blk) "flag" then
    if String.eqb (direction a) "B" then
      match goto_next_level "goal" a with
      | None => None
      | Some a =>
          let p := _player a in
          Some (with_player (change_health (get_max_health p - get_health p) p) a, true)
      end
    else
      match goto_next_level "goal" a with
      | None => None
      | Some a => Some (a, true)
      end
  else if String.eqb (block_get_id blk) "switch_pressed" then Some (a, false)
  else if String.eqb (block_get_id blk) "switch" then
    match read_switch blk a with
    | None => None
    | Some switched =>
        if negb switched then
          if String.eqb (direction a) "B" then press_switch blk a
          else Some (a, true)
        else Some (a, false)
    end
  else Some (a, true).

Definition _handle_player_collide_mob (m : mob) (a : MarioApp) : MarioApp * bool :=
  let direction a := get_collision_direction (_world a) (AMob m) ThePlayer in
  let a :=
    if invincibility a then with_world (remove_mob m (_world a)) a
    else if String.eqb (m_id m) "mushroom" then
      if String.eqb (direction a) "R" then
        let a := with_player (change_health (-1) (_player a)) a in
        with_player (set_velocity (-100, snd (get_velocity (_player a))) (_player a)) a
      else if String.eqb (direction a) "L" then
        let a := with_player (change_health (-1) (_player a)) a in
        with_player (set_velocity (100, snd (get_velocity (_player a))) (_player a)) a
      else if String.eqb (direction a) "B" then
        let a := with_player
                   (set_velocity (fst (get_velocity (_player a)), - BLOCK_SIZE * 7)
                      (_player a)) a in
        let a := with_player (set_jumping true (_player a)) a in
        with_world (remove_mob m (_world a)) a
      else a
    else
      let r := mob_on_hit m (_world a, _player a) in
      with_player (snd r) (with_world (fst r) a) in
  let a := update_status_bar a in
  let a := if is_dead (_player a) then death a else a in
  (a, true).

End App.

(** ** Vocabulary of the statements *)

(** Deadlines of the pending callbacks that clear the invincibility flag. *)
Definition is_clear (t : Z * action) : bool :=
  match snd t with
  | remove_invincibility_cb => true
  | unpress_switch_cb _ _ _ _ _ => false
  end.

Definition clears (q : list (Z * action)) : list Z :=
  map fst (List.filter is_clear q).


(** The bricks that [unpress_switch] constructs for the stored positions,
    the first of them with identity [n]. *)
Fixpoint new_bricks (n : ref) (positions : list (Z * Z)) : list (thing * (Z * Z)) :=
  match positions with
  | [] => []
  | p :: rest =>
      (ABlock {| b_ref := n; b_class := Block_ "brick" |}, p) :: new_bricks (S n) rest
  end.

(** A world holds an object at most once. *)
Definition idof (e : thing * (Z * Z)) : option ref := ident (fst e).

Definition wf_world (w : World) : Prop := NoDup (idof <$> w_things w).

Section Cleared.
Context {E : External}.

(** The entities that the press of a switch at [(x, y)] takes out of the
    world besides the switch: those in range whose identifier is "brick". *)
Definition cleared (x y : Z) (e : thing * (Z * Z)) : Prop :=
  get_id (fst e) = Some "brick" /\ in_range (fst e) (snd e) x y (BLOCK_SIZE * 10) = true.

#[export] Instance cleared_dec x y e : Decision (cleared x y e).
Proof. unfold cleared. apply _. Defined.

End Cleared.

(** ** A concrete level for running the handlers *)

Module Demo.

(** An external environment whose resolver answers with a fixed direction,
    whose spatial query is the square of the given half-width around the
    point, and whose library hooks do nothing. *)
Definition env (direction : string) (restart : bool) : External :=
  {| get_collision_direction := fun _ _ _ => direction;
     in_range := fun _ p x y d =>
       (Z.abs (fst p - x) <=? d) && (Z.abs (snd p - y) <=? d);
     load_world := fun _ => {| w_things := [] |};
     mystery_id := "mystery";
     mystery_on_hit := fun _ wp => wp;
     mob_on_hit := fun _ wp => wp;
     collect := fun i p => change_score (i_value i) p;
     askquestion_yes := restart |}.

Definition the_switch : block := {| b_ref := 1%nat; b_class := Switch |}.
Definition brick_near : block := {| b_ref := 2%nat; b_class := Block_ "brick" |}.
Definition base_near : block := {| b_ref := 3%nat; b_class := Block_ "brick_base" |}.
Definition brick_far : block := {| b_ref := 4%nat; b_class := Block_ "brick" |}.
Definition the_flag : block := {| b_ref := 5%nat; b_class := Flag |}.
Definition the_bounce : block := {| b_ref := 6%nat; b_class := Block_ "bounce_block" |}.
Definition placeholder : block := {| b_ref := 7%nat; b_class := Switch_Pressed |}.
Definition goomba : mob := {| m_ref := 8%nat; m_id := "mushroom"; m_tempo := 15 |}.
Definition floaty : mob := {| m_ref := 9%nat; m_id := "cloud"; m_tempo := 0 |}.
Definition the_star : item := {| i_ref := 10%nat; i_id := "star"; i_value := 10 |}.
Definition second_star : item := {| i_ref := 11%nat; i_id := "star"; i_value := 10 |}.

Definition level1 : World :=
  {| w_things :=
       [ (ThePlayer, (0, 0));
         (ABlock the_switch, (0, 16));
         (ABlock brick_near, (32, 16));
         (ABlock base_near, (48, 16));
         (ABlock brick_far, (480, 16));
         (ABlock the_flag, (320, 16));
         (ABlock the_bounce, (64, 16));
         (AMob goomba, (96, 0));
         (AMob floaty, (16, 0));
         (AnItem the_star, (112, 0));
         (AnItem second_star, (128, 0)) ] |}.

Definition mario (h : Z) (jumping : bool) : Player :=
  {| p_health := h; p_max_health := 5; p_score := 0;
     p_jumping := jumping; p_velocity := (0, 0) |}.

Definition app (h : Z) (jumping : bool) : MarioApp :=
  {| config :=
       {[ "==level1.txt==" := [ "tunnel : bonus.txt"; "goal : level2.txt" ] ]};
     current_level := "level1.txt";
     health := 5; x_start := 0; y_start := 0; mass := 100; max_velocity := 10;
     _master := {| destroyed := false; clock := 0; pending := [] |};
     invincibility := false; _on_tunnel := false; _switch := false;
     _player := mario h jumping;
     _world := level1;
     switch_attr := ∅; tempo_attr := ∅;
     next_ref := 100%nat |}.

End Demo.

(** * The rest of [app.py] *)

(** ** The handlers and key callbacks that remain *)

Definition with_current_level (l : string) (a : MarioApp) : MarioApp :=
  {| config := config a; current_level := l; health := health a;
     x_start := x_start a; y_start := y_start a; mass := mass a;
     max_velocity := max_velocity a; _master := _master a;
     invincibility := invincibility a; _on_tunnel := _on_tunnel a;
     _switch := _switch a; _player := _player a; _world := _world a;
     switch_attr := switch_attr a; tempo_attr := tempo_attr a;
     next_ref := next_ref a |}.

Section Rest.
Context {E : External}.

Definition _handle_mob_collide_item (m : mob) (i : item) (a : MarioApp)
    : MarioApp * bool :=
  (a, false).

Definition _handle_mob_collide_mob (mob1 mob2 : mob) (a : MarioApp) : MarioApp * bool :=
  let a :=
    if String.eqb (m_id mob1) "fireball" || String.eqb (m_id mob2) "fireball" then
      let a := with_world (remove_mob mob1 (_world a)) a in
      with_world (remove_mob mob2 (_world a)) a
    else a in
  let a :=
    if String.eqb (m_id mob1) "mushroom" && String.eqb (m_id mob2) "mushroom" then
      let a := set_tempo mob1 (- get_tempo mob1 a) a in
      set_tempo mob2 (- get_tempo mob2 a) a
    else a in
  (a, false).

Definition _handle_player_separate_block (blk : block) (a : MarioApp)
    : MarioApp * bool :=
  let a := with_player (set_jumping true (_player a)) a in
  let a := if String.eqb (block_get_id blk) "tunnel" then _set_on_tunnel false a else a in
  (a, true).

(** [None] is the [KeyError] that [goto_next_level] lets through. *)
Definition _duck (a : MarioApp) : option MarioApp :=
  if _on_tunnel a then
    match goto_next_level "tunnel" a with
    | None => None
    | Some a => Some (_set_on_tunnel false a)
    end
  else Some a.

Definition _move (dx dy : Z) (a : MarioApp) : MarioApp :=
  let dx := if max_velocity a <? dx then max_velocity a else dx in
  with_player
    (set_velocity (dx * BLOCK_SIZE * 5, snd (get_velocity (_player a))) (_player a)) a.

(** [bind]: the key sequences and their callbacks, in the order of the
    source. *)
Definition bind : list (string * (MarioApp -> option MarioApp)) :=
  [ ("<w>", fun a => Some (_jump a));
    ("<Up>", fun a => Some (_jump a));
    ("<space>", fun a => Some (_jump a));
    ("<s>", _duck);
    ("<Down>", _duck);
    ("<Right>", fun a => Some (_move 1 0 a));
    ("<d>", fun a => Some (_move 1 (snd (get_velocity (_player a))) a));
    ("<Left>", fun a => Some (_move (-1) 0 a));
    ("<a>", fun a => Some (_move (-1) (snd (get_velocity (_player a))) a)) ].

(** A key event: the callback bound to the sequence runs; a sequence that
    is not bound does nothing. *)
Fixpoint key_event_in (table : list (string * (MarioApp -> option MarioApp)))
    (key : string) (a : MarioApp) : option MarioApp :=
  match table with
  | [] => Some a
  | (k, callback) :: rest =>
      if String.eqb k key then callback a else key_event_in rest key a
  end.

Definition key_event (key : string) (a : MarioApp) : option MarioApp :=
  key_event_in bind key a.

(** [menu_load_level], with the file name that the dialog returned. *)
Definition menu_load_level (filename : string) (a : MarioApp) : MarioApp :=
  let a := with_current_level (split_last "/" filename) a in
  let a := with_player (change_health (health a) (_player a)) a in
  let a := with_player (change_score (- get_score (_player a)) (_player a)) a in
  let a := update_status_bar a in
  reset_world (current_level a) a.

End Rest.

(** ** The events of a running game *)

(** What the main loop hands to the application: time passes and the
    [after] callbacks that are due run; the physics engine calls one of
    the handlers registered by [_setup_collision_handlers]; a key of
    [bind] is pressed; a command of the File menu is chosen. *)
Inductive event :=
| Elapse (ms : Z)
| PlayerItem (dropped_item : item)
| PlayerBlock (blk : block)
| PlayerSeparateBlock (blk : block)
| PlayerMob (m : mob)
| MobBlock (m : mob) (blk : block)
| MobMob (mob1 mob2 : mob)
| MobItem (m : mob) (i : item)
| KeyPress (key : string)
| MenuLoadLevel (filename : string)
| MenuResetLevel
| MenuExit.

Section Events.
Context {E : External}.

(** One event.  A destroyed root delivers nothing; [None] is an exception
    that leaves the callback; the verdict of a collision handler goes to
    the physics engine and is not part of the state. *)
Definition handle_event (e : event) (a : MarioApp) : option MarioApp :=
  if destroyed (_master a) then Some a
  else
    match e with
    | Elapse ms => Some (tick ms a)
    | PlayerItem dropped_item => Some (fst (_handle_player_collide_item dropped_item a))
    | PlayerBlock blk => fst <$> _handle_player_collide_block blk a
    | PlayerSeparateBlock blk => Some (fst (_handle_player_separate_block blk a))
    | PlayerMob m => Some (fst (_handle_player_collide_mob m a))
    | MobBlock m blk => Some (fst (_handle_mob_collide_block m blk a))
    | MobMob mob1 mob2 => Some (fst (_handle_mob_collide_mob mob1 mob2 a))
    | MobItem m i => Some (fst (_handle_mob_collide_item m i a))
    | KeyPress key => key_event key a
    | MenuLoadLevel filename => Some (menu_load_level filename a)
    | MenuResetLevel => Some (menu_reset_level a)
    | MenuExit => Some (menu_exit a)
    end.

Fixpoint run_events (events : list event) (a : MarioApp) : option MarioApp :=
  match events with
  | [] => Some a
  | e :: rest =>
      match handle_event e a with
      | None => None
      | Some a => run_events rest a
      end
  end.

End Events.

(** The time that passes in a run of events. *)
Fixpoint elapsed_time (events : list event) : Z :=
  match events with
  | [] => 0
  | Elapse ms :: rest => ms + elapsed_time rest
  | _ :: rest => elapsed_time rest
  end.

(** The events of a run in which time does not go back and no star is
    picked up. *)
Definition no_star_pickup (e : event) : Prop :=
  match e with
  | Elapse ms => 0 <= ms
  | PlayerItem dropped_item => i_id dropped_item <> "star"
  | _ => True
  end.

(** Two states with the same invincibility flag, the same clock and the
    same pending clearing callbacks. *)
Definition same_timers (a a' : MarioApp) : Prop :=
  invincibility a' = invincibility a
  /\ clock (_master a') = clock (_master a)
  /\ clears (pending (_master a')) = clears (pending (_master a)).

(** ** [load_config] *)

(** A value assigned to an attribute of the application by [load_config]. *)
Inductive value :=
| VInt (n : Z)
| VStr (s : string).

Section LoadConfig.

(** The builtin [int] on a string; [None] is its [ValueError]. *)
Variable int : string -> option Z.

(** The first loop of [load_config]: the lines of the file are grouped
    under the header lines, those that start with "==".  [None] is the
    failure of [self.config[current_line]] on a line that comes before
    any header. *)
Fixpoint read_sections (content : list string) (current_line : option string)
    (config : gmap string (list string)) : option (gmap string (list string)) :=
  match content with
  | [] => Some config
  | line :: rest =>
      let line := strip "010" line in
      if startswith line "==" then
        read_sections rest (Some line) (<[line := []]> config)
      else
        match current_line with
        | None => None
        | Some header =>
            match config !! header with
            | None => None
            | Some lines =>
                read_sections rest current_line (<[header := lines ++ [line]]> config)
            end
        end
  end.

(** A header line: after [strip("\n")] it starts with "==". *)
Definition is_header (line : string) : bool := startswith (strip "010" line) "==".

(** The keys of the Player section that are read with [int], with the
    attribute each of them sets. *)
Definition player_int_keys : list (string * string) :=
  [ ("x", "x_start"); ("y", "y_start"); ("mass", "mass"); ("health", "health");
    ("max_velocity", "max_velocity") ].

(** [data.split(":")[-1].strip(" ")] *)
Definition value_of (data : string) : string := strip " " (split_last ":" data).

(** [if data.startswith(key): self.<name> = int(...)] *)
Definition read_int (key name data : string) (attrs : gmap string value)
    : option (gmap string value) :=
  if startswith data key then
    match int (value_of data) with
    | None => None
    | Some n => Some (<[name := VInt n]> attrs)
    end
  else Some attrs.

(** [if data.startswith(key): self.<name> = ...] *)
Definition read_str (key name data : string) (attrs : gmap string value)
    : option (gmap string value) :=
  if startswith data key then Some (<[name := VStr (value_of data)]> attrs)
  else Some attrs.

Definition read_world_line (attrs : option (gmap string value)) (world_data : string)
    : option (gmap string value) :=
  attrs ← attrs;
  attrs ← read_int "gravity" "global_gravity" world_data attrs;
  read_str "start" "current_level" world_data attrs.

Definition read_player_line (attrs : option (gmap string value)) (player_data : string)
    : option (gmap string value) :=
  attrs ← attrs;
  attrs ← read_str "character" "character" player_data attrs;
  attrs ← read_int "x" "x_start" player_data attrs;
  attrs ← read_int "y" "y_start" player_data attrs;
  attrs ← read_int "mass" "mass" player_data attrs;
  attrs ← read_int "health" "health" player_data attrs;
  read_int "max_velocity" "max_velocity" player_data attrs.

(** The second loop: the sections "==World==" and "==Player==" set the
    attributes, every other section is left for [goto_next_level]. *)
Definition read_attributes (config : gmap string (list string))
    : option (gmap string value) :=
  let attrs :=
    match config !! "==World==" with
    | None => Some ∅
    | Some lines => fold_left read_world_line lines (Some ∅)
    end in
  match config !! "==Player==" with
  | None => attrs
  | Some lines => fold_left read_player_line lines attrs
  end.

(** [load_config] on the lines of the configuration file: the dictionary
    of sections and the attributes that were set.  [None] is the except
    branch: the dialog "Config file invalid" and the exit. *)
Definition load_config (content : list string)
    : option (gmap string (list string) * gmap string value) :=
  config ← read_sections content None ∅;
  attrs ← read_attributes config;
  Some (config, attrs).

End LoadConfig.

(** ** The builders *)

(** What the constructors of the library classes give to an object of the
    given identity. *)
Class Library := {
  (** the default arguments of [MysteryBlock()]: drop and drop range *)
  MysteryBlock_default : option string * (Z * Z);
  (** [CloudMob()], [Fireball()], [Mob(mob_id, size=(1, 1))] *)
  CloudMob_new : ref -> mob;
  Fireball_new : ref -> mob;
  Mob_new : string -> ref -> mob;
  (** [Coin()], [DroppedItem(item_id)] *)
  Coin_new : ref -> item;
  DroppedItem_new : string -> ref -> item
}.

(** [Mushroom()] and [Star()], the constructors of [app.py]. *)
Definition Mushroom_new (r : ref) : mob :=
  {| m_ref := r; m_id := "mushroom"; m_tempo := 15 |}.

Definition Star_new (r : ref) : item :=
  {| i_ref := r; i_id := "star"; i_value := 10 |}.

(** [table[key]] for a table whose keys are one-character strings; [None]
    is the [KeyError]. *)
Fixpoint lookup_char (table : list (ascii * string)) (c : ascii) : option string :=
  match table with
  | [] => None
  | (k, v) :: rest => if Ascii.eqb k c then Some v else lookup_char rest c
  end.

Definition table_get (table : list (ascii * string)) (key : string) : option string :=
  match key with
  | String c EmptyString => lookup_char table c
  | _ => None
  end.

Section Builders.
Context {L : Library}.

(** The builders work on the world that is being built and on the
    identity of the next object. *)
Definition create_block (block_id : string) (x y : Z) (st : World * ref)
    : option (World * ref) :=
  block_id ← table_get BLOCKS block_id;
  let c :=
    if String.eqb block_id "mystery_empty"
    then MysteryBlock_ (fst MysteryBlock_default) (snd MysteryBlock_default)
    else if String.eqb block_id "mystery_coin" then MysteryBlock_ (Some "coin") (3, 6)
    else if String.eqb block_id "tunnel" then Tunnel
    else if String.eqb block_id "flag" then Flag
    else if String.eqb block_id "switch" then Switch
    else Block_ block_id in
  Some (add_block {| b_ref := snd st; b_class := c |}
          (x * BLOCK_SIZE) (y * BLOCK_SIZE) (fst st),
        S (snd st)).

Definition create_item (item_id : string) (x y : Z) (st : World * ref)
    : option (World * ref) :=
  item_id ← table_get ITEMS item_id;
  let i :=
    if String.eqb item_id "coin" then Coin_new (snd st)
    else if String.eqb item_id "star" then Star_new (snd st)
    else DroppedItem_new item_id (snd st) in
  Some (add_thing (AnItem i) (x * BLOCK_SIZE) (y * BLOCK_SIZE) (fst st), S (snd st)).

Definition create_mob (mob_id : string) (x y : Z) (st : World * ref)
    : option (World * ref) :=
  mob_id ← table_get MOBS mob_id;
  let m :=
    if String.eqb mob_id "cloud" then CloudMob_new (snd st)
    else if String.eqb mob_id "fireball" then Fireball_new (snd st)
    else if String.eqb mob_id "mushroom" then Mushroom_new (snd st)
    else Mob_new mob_id (snd st) in
  Some (add_thing (AMob m) (x * BLOCK_SIZE) (y * BLOCK_SIZE) (fst st), S (snd st)).

End Builders.

(** ** A configuration file and library defaults for running the rest *)

Module DemoRest.

(** Decimal numerals with an optional minus sign, standing in for the
    builtin [int]. *)
Fixpoint digits (s : string) (acc : Z) : option Z :=
  match s with
  | EmptyString => Some acc
  | String c rest =>
      let n := Z.of_nat (nat_of_ascii c) - 48 in
      if (0 <=? n) && (n <=? 9) then digits rest (10 * acc + n) else None
  end.

Definition int (s : string) : option Z :=
  match s with
  | EmptyString => None
  | String c rest =>
      if Ascii.eqb c "-"
      then if String.eqb rest "" then None else Z.opp <$> digits rest 0
      else digits s 0
  end.

Definition newline : string := String "010" EmptyString.

Definition with_newlines (lines : list string) : list string :=
  map (fun l => l +:+ newline) lines.

Definition file_head : list string :=
  with_newlines
    [ "==World==";
      "gravity : 400";
      "start : level1.txt";
      "==Player==";
      "character : luigi";
      "x : 30";
      "y : 30";
      "mass : 100";
      "health : 5";
      "max_velocity : 100" ].

Definition file_level1 : list string :=
  with_newlines [ "tunnel : bonus.txt"; "goal : level2.txt" ].

Definition file_tail : list string :=
  with_newlines [ "==level2.txt=="; "goal : END" ].

Definition config_file : list string :=
  file_head ++ ("==level1.txt==" +:+ newline) :: file_level1 ++ file_tail.

(** A file whose health is not a number. *)
Definition bad_file : list string :=
  with_newlines [ "==Player=="; "mass : 100"; "health : five" ].

(** The application of [Demo] on a level that the configuration does not
    know, and with the player on a tunnel. *)
Definition lost_app : MarioApp :=
  with_on_tunnel true (with_current_level "nowhere.txt" (Demo.app 3 true)).

Definition bounce_object : block := {| b_ref := 12%nat; b_class := BounceBlock |}.
Definition fireball : mob := {| m_ref := 13%nat; m_id := "fireball"; m_tempo := 0 |}.

Definition library : Library :=
  {| MysteryBlock_default := (None, (1, 1));
     CloudMob_new := fun r => {| m_ref := r; m_id := "cloud"; m_tempo := 40 |};
     Fireball_new := fun r => {| m_ref := r; m_id := "fireball"; m_tempo := 0 |};
     Mob_new := fun id r => {| m_ref := r; m_id := id; m_tempo := 0 |};
     Coin_new := fun r => {| i_ref := r; i_id := "coin"; i_value := 1 |};
     DroppedItem_new := fun id r => {| i_ref := r; i_id := id; i_value := 0 |} |}.

End DemoRest.

(** * Properties *)

Section Proofs.
Context {E : External}.

(** ** Removal from a world *)

Lemma remove_thing_gone (t : thing) (w : World) (e : thing * (Z * Z)) :
  e ∈ w_things (remove_thing t w) -> same_object (fst e) t = false.
Proof.
  unfold remove_thing; simpl. intros H.
  apply list_elem_of_filter in H. tauto.
Qed.

Lemma remove_thing_keeps (t : thing) (w : World) (e : thing * (Z * Z)) :
  e ∈ w_things w -> same_object (fst e) t = false ->
  e ∈ w_things (remove_thing t w).
Proof.
  unfold remove_thing; simpl. intros H1 H2.
  apply list_elem_of_filter. tauto.
Qed.

Lemma same_object_refl (t : thing) : same_object t t = true.
Proof. unfold same_object. apply bool_decide_eq_true. reflexivity. Qed.

(** ** Player and mob *)

(** C9: the player-mob begin handler returns True on every path: with the
    player invincible, for a mushroom whatever the direction of the
    contact, and for any other mob after its on-hit hook. *)
Theorem player_mob_collision_always_accepted (m : mob) (a : MarioApp) :
  snd (_handle_player_collide_mob m a) = true.
Proof.
  unfold _handle_player_collide_mob.
  destruct (invincibility a); [reflexivity |].
  destruct (String.eqb (m_id m) "mushroom"); reflexivity.
Qed.

(** C6: while the invincibility flag is set, a player-mob begin collision
    removes the mob from the world and leaves the health of the (living)
    player as it was, whatever the identifier of the mob. *)
Theorem invincible_player_removes_mob (m : mob) (a : MarioApp) :
  invincibility a = true ->
  is_dead (_player a) = false ->
  let a' := fst (_handle_player_collide_mob m a) in
  _world a' = remove_mob m (_world a)
  /\ (forall e, e ∈ w_things (_world a') -> same_object (fst e) (AMob m) = false)
  /\ get_health (_player a') = get_health (_player a)
  /\ _player a' = _player a
  /\ snd (_handle_player_collide_mob m a) = true.
Proof.
  intros Hinv Halive. unfold _handle_player_collide_mob.
  rewrite Hinv. cbn [fst snd update_status_bar with_world _player _world].
  rewrite Halive. cbn [_world _player with_world].
  repeat split.
  intros e He. eapply remove_thing_gone. exact He.
Qed.

Lemma change_health_minus_one (p : Player) :
  0 < get_health p <= get_max_health p ->
  get_health (change_health (-1) p) = get_health p - 1.
Proof.
  unfold get_health, get_max_health, change_health, clamp_health; simpl.
  intros H.
  destruct (Z.ltb_spec (p_health p + -1) 0); [lia |].
  destruct (Z.ltb_spec (p_max_health p) (p_health p + -1)); lia.
Qed.

(** C7: a player that is not invincible meets a mushroom.  With the
    resolver answering "R" or "L" the player loses exactly one health
    point, its horizontal velocity becomes -100 for "R" and 100 for "L",
    and the mob stays in the world; with the answer "B" the mob is
    removed, the vertical velocity becomes [- BLOCK_SIZE * 7] and the
    jumping flag is set.  In every case the handler ends with the death
    flow exactly when the health has reached zero. *)
Theorem mushroom_collision (m : mob) (a : MarioApp) :
  invincibility a = false ->
  m_id m = "mushroom" ->
  0 < get_health (_player a) <= get_max_health (_player a) ->
  let d := get_collision_direction (_world a) (AMob m) ThePlayer in
  let r := _handle_player_collide_mob m a in
  (d = "R" \/ d = "L" ->
     exists a1,
       get_health (_player a1) = get_health (_player a) - 1
       /\ get_velocity (_player a1)
            = ((if String.eqb d "R" then -100 else 100), snd (get_velocity (_player a)))
       /\ is_jumping (_player a1) = is_jumping (_player a)
       /\ _world a1 = _world a
       /\ r = ((if get_health (_player a1) =? 0 then death a1 else a1), true))
  /\ (d = "B" ->
     get_health (_player (fst r)) = get_health (_player a)
     /\ get_velocity (_player (fst r))
          = (fst (get_velocity (_player a)), - BLOCK_SIZE * 7)
     /\ is_jumping (_player (fst r)) = true
     /\ _world (fst r) = remove_mob m (_world a)
     /\ (forall e, e ∈ w_things (_world (fst r)) -> same_object (fst e) (AMob m) = false)
     /\ snd r = true).
Proof.
  intros Hinv Hid Hh d r.
  assert (Hdead : forall a1, get_health (_player a1) = get_health (_player a) - 1 ->
            is_dead (_player a1) = (get_health (_player a1) =? 0)).
  { intros a1 H1. unfold is_dead. unfold get_health in *.
    destruct (Z.leb_spec (p_health (_player a1)) 0);
      destruct (Z.eqb_spec (p_health (_player a1)) 0); lia. }
  split.
  - intros Hd.
    assert (Hside : r =
      (let a1 := with_player
                   (set_velocity ((if String.eqb d "R" then -100 else 100),
                                  snd (get_velocity (_player a)))
                      (change_health (-1) (_player a))) a in
       (if is_dead (_player a1) then death a1 else a1, true))).
    { subst r. unfold _handle_player_collide_mob. rewrite Hinv, Hid.
      cbn [String.eqb Ascii.eqb Bool.eqb with_player _world _player update_status_bar].
      fold d. destruct Hd as [Hd | Hd]; rewrite Hd; reflexivity. }
    eexists. split; [| split; [| split; [| split]]]; [| | | | rewrite Hside; cbv zeta].
    5: { rewrite Hdead; [reflexivity |]. cbn [_player with_player].
         unfold get_health at 1. cbn [set_velocity p_health].
         apply change_health_minus_one; exact Hh. }
    + cbn [_player with_player]. unfold get_health at 1. cbn [set_velocity p_health].
      apply change_health_minus_one; exact Hh.
    + reflexivity.
    + reflexivity.
    + reflexivity.
  - intros Hd. subst r. unfold _handle_player_collide_mob. rewrite Hinv, Hid.
    cbn [String.eqb Ascii.eqb Bool.eqb with_player with_world _world _player
         update_status_bar].
    fold d. rewrite Hd.
    cbn [String.eqb Ascii.eqb Bool.eqb with_player with_world _world _player fst snd].
    assert (Halive : is_dead (set_jumping true
              (set_velocity (fst (get_velocity (_player a)), - BLOCK_SIZE * 7)
                 (_player a))) = false).
    { unfold is_dead, get_health in *. simpl. apply Z.leb_gt. lia. }
    rewrite Halive. cbn [fst snd _player _world with_world with_player].
    repeat split.
    intros e He. eapply remove_thing_gone; exact He.
Qed.

(** ** Mob and block *)

Lemma mob_block_pressed_switch (m : mob) (blk : block) (a : MarioApp) :
  b_class blk = Switch_Pressed ->
  snd (_handle_mob_collide_block m blk a)
    = (String.eqb (m_id m) "fireball" || String.eqb (m_id m) "mushroom").
Proof.
  intros Hc. unfold _handle_mob_collide_block, block_get_id. rewrite Hc.
  destruct (String.eqb (m_id m) "fireball"); [reflexivity |].
  destruct (String.eqb (m_id m) "mushroom"); reflexivity.
Qed.

(** ** Level transition *)

Lemma reset_world_with_player (l : string) (p : Player) (a : MarioApp) :
  reset_world l (with_player p a) = with_player p (reset_world l a).
Proof. unfold reset_world. destruct (String.eqb l "END"); reflexivity. Qed.

Lemma goto_line_with_player (type : string) (p : Player) (a : MarioApp) (i : string) :
  goto_line type (with_player p a) i = with_player p (goto_line type a i).
Proof.
  unfold goto_line. destruct (startswith i type); [| reflexivity].
  apply reset_world_with_player.
Qed.

Lemma fold_goto_with_player (type : string) (p : Player) (lines : list string) :
  forall a, fold_left (goto_line type) lines (with_player p a)
            = with_player p (fold_left (goto_line type) lines a).
Proof.
  induction lines as [| i lines IH]; intros a; simpl; [reflexivity |].
  rewrite goto_line_with_player. apply IH.
Qed.

Lemma goto_next_level_with_player (type : string) (p : Player) (a : MarioApp) :
  goto_next_level type (with_player p a) = with_player p <$> goto_next_level type a.
Proof.
  unfold goto_next_level, highscore. cbn [config current_level with_player].
  destruct (config a !! ("==" +:+ current_level a +:+ "==")) as [lines |]; simpl;
    [| reflexivity].
  f_equal. apply fold_goto_with_player.
Qed.

Lemma reset_world_player (l : string) (a : MarioApp) :
  _player (reset_world l a) = _player a.
Proof. unfold reset_world. destruct (String.eqb l "END"); reflexivity. Qed.

Lemma fold_goto_player (type : string) (lines : list string) :
  forall a, _player (fold_left (goto_line type) lines a) = _player a.
Proof.
  induction lines as [| i lines IH]; intros a; simpl; [reflexivity |].
  rewrite IH. unfold goto_line. destruct (startswith i type); [| reflexivity].
  apply reset_world_player.
Qed.

Lemma goto_next_level_player (type : string) (a a1 : MarioApp) :
  goto_next_level type a = Some a1 -> _player a1 = _player a.
Proof.
  unfold goto_next_level, highscore.
  destruct (config a !! ("==" +:+ current_level a +:+ "==")) as [lines |];
    [| discriminate].
  intros [= <-]. apply fold_goto_player.
Qed.

Lemma full_heal (p : Player) :
  0 <= get_max_health p ->
  get_health (change_health (get_max_health p - get_health p) p) = get_max_health p.
Proof.
  unfold get_health, get_max_health, change_health, clamp_health; simpl. intros H.
  replace (p_health p + (p_max_health p - p_health p)) with (p_max_health p) by lia.
  destruct (Z.ltb_spec (p_max_health p) 0); [lia |].
  rewrite Z.ltb_irrefl. reflexivity.
Qed.

(** ** Player and block *)

(** C3, as the code has it: on a begin collision with a flag the next level
    is looked up under the key "goal" for the current level; when the
    resolver answers "B" (the player is on top of the flag) the health is
    then raised to the maximum; on any other answer the health is left as
    it was: there is no heal at all. *)
Theorem flag_collision (r : ref) (a a1 : MarioApp) :
  let blk := {| b_ref := r; b_class := Flag |} in
  let d := get_collision_direction (_world a) (ABlock blk) ThePlayer in
  goto_next_level "goal" a = Some a1 ->
  exists a',
    _handle_player_collide_block blk a = Some (a', true)
    /\ _world a' = _world a1
    /\ _master a' = _master a1
    /\ (d = "B" ->
          _player a'
            = change_health (get_max_health (_player a) - get_health (_player a))
                (set_jumping false (_player a))
          /\ (0 <= get_max_health (_player a) ->
              get_health (_player a') = get_max_health (_player a')))
    /\ (d <> "B" ->
          a' = a1 /\ get_health (_player a') = get_health (_player a)).
Proof.
  intros blk d Hgoto.
  unfold _handle_player_collide_block.
  change (block_get_id blk) with "flag".
  cbn [String.eqb Ascii.eqb Bool.eqb andb block_on_hit b_class blk].
  fold d.
  destruct (String.eqb_spec d "B") as [Hd | Hd].
  - cbn [_world with_player]. fold d. rewrite (proj2 (String.eqb_eq d "B") Hd).
    rewrite goto_next_level_with_player, Hgoto. cbn [fmap option_fmap option_map].
    eexists. split; [reflexivity |].
    cbn [_world _master _player with_player].
    repeat split; try congruence.
    intros Hmax. unfold get_max_health at 3. cbn [change_health p_max_health].
    apply (full_heal (set_jumping false (_player a))). exact Hmax.
  - fold d. rewrite (proj2 (String.eqb_neq d "B") Hd). rewrite Hgoto.
    eexists. split; [reflexivity |].
    repeat split; try congruence.
    rewrite (goto_next_level_player _ _ _ Hgoto). reflexivity.
Qed.

(** C8, as the code has it: on a begin collision with a bounce block the
    handler calls [_jump], which sets the vertical velocity to the jump
    value only when the jumping flag is clear at that point, that is when
    the resolver answered "B" (landing clears the flag) or the player was
    not jumping; otherwise the velocity is left as it was. *)
Theorem bounce_block_jump (r : ref) (a : MarioApp) :
  let blk := {| b_ref := r; b_class := Block_ "bounce_block" |} in
  let d := get_collision_direction (_world a) (ABlock blk) ThePlayer in
  exists a',
    _handle_player_collide_block blk a = Some (a', true)
    /\ get_velocity (_player a')
         = (if String.eqb d "B" || negb (is_jumping (_player a))
            then (fst (get_velocity (_player a)), - BLOCK_SIZE * JUMP_SIZE)
            else get_velocity (_player a))
    /\ get_health (_player a') = get_health (_player a)
    /\ _world a' = _world a.
Proof.
  intros blk d.
  unfold _handle_player_collide_block.
  change (block_get_id blk) with "bounce_block".
  cbn [String.eqb Ascii.eqb Bool.eqb andb block_on_hit b_class blk].
  fold d. unfold _jump.
  destruct (String.eqb d "B"); cbn [orb _player with_player].
  - eexists. split; [reflexivity |]. repeat split.
  - destruct (is_jumping (_player a)); cbn [negb];
      (eexists; split; [reflexivity |]; repeat split; reflexivity).
Qed.

(** ** The [after] queue *)

Lemma restore_bricks_frame (positions : list (Z * Z)) :
  forall a,
    _master (restore_bricks positions a) = _master a
    /\ invincibility (restore_bricks positions a) = invincibility a
    /\ _player (restore_bricks positions a) = _player a
    /\ switch_attr (restore_bricks positions a) = switch_attr a.
Proof.
  induction positions as [| p rest IH]; intros a; simpl; [tauto |].
  match goal with
  | |- context [restore_bricks rest ?x] => destruct (IH x) as (H1 & H2 & H3 & H4)
  end.
  rewrite H1, H2, H3, H4. tauto.
Qed.

Lemma unpress_switch_frame blk x y pressed_switch positions (a : MarioApp) :
  _master (unpress_switch blk x y pressed_switch positions a) = _master a
  /\ invincibility (unpress_switch blk x y pressed_switch positions a) = invincibility a
  /\ _player (unpress_switch blk x y pressed_switch positions a) = _player a.
Proof.
  unfold unpress_switch. cbn [_master invincibility _player with_world].
  destruct (restore_bricks_frame positions (write_switch blk false a))
    as (H1 & H2 & H3 & _).
  rewrite H1, H2, H3. tauto.
Qed.











(** ** The revert of a switch *)

Lemma restore_bricks_world (positions : list (Z * Z)) :
  forall a,
    w_things (_world (restore_bricks positions a))
    = w_things (_world a) ++ new_bricks (next_ref a) positions.
Proof.
  induction positions as [| [px py] rest IH]; intros a.
  - simpl. rewrite app_nil_r. reflexivity.
  - cbn [restore_bricks new_block new_bricks fst snd]. rewrite IH.
    cbn [_world with_world with_next_ref next_ref add_block add_thing w_things].
    rewrite <- app_assoc. reflexivity.
Qed.

Lemma unpress_switch_world (blk : block) (x y : Z)
    (pressed_switch : block) (positions : list (Z * Z)) (a : MarioApp) :
  w_things (_world (unpress_switch blk x y pressed_switch positions a))
  = filter (fun e => same_object (fst e) (ABlock pressed_switch) = false)
      (w_things (_world a) ++ new_bricks (next_ref a) positions)
    ++ [(ABlock blk, (x, y))].
Proof.
  unfold unpress_switch.
  cbn [_world with_world add_block add_thing w_things remove_block remove_thing].
  rewrite restore_bricks_world. reflexivity.
Qed.

(** C1, as the code has it: [unpress_switch] does not look at which world
    is active.  In the world that is active when it runs it adds one new
    brick at every stored position, takes the pressed placeholder out if
    it is there, and adds the original switch, its [_switch] attribute
    reset to False, at the stored coordinates; the fired callback is this
    function and nothing else.  After a change of level the bricks and the
    switch therefore go into the world that was loaded for the new level. *)
Theorem unpress_switch_in_active_world (blk : block) (x y : Z)
    (pressed_switch : block) (positions : list (Z * Z)) (a : MarioApp) :
  let a' := unpress_switch blk x y pressed_switch positions a in
  let kept e := same_object (fst e) (ABlock pressed_switch) = false in
  w_things (_world a')
    = filter kept (w_things (_world a) ++ new_bricks (next_ref a) positions)
      ++ [(ABlock blk, (x, y))]
  /\ switch_attr a' !! b_ref blk = Some false
  /\ run_action (unpress_switch_cb blk x y pressed_switch positions) a = a'
  /\ (forall new_level, String.eqb new_level "END" = false ->
        w_things (_world (unpress_switch blk x y pressed_switch positions
                            (reset_world new_level a)))
        = filter kept
            (w_things (load_world new_level)
             ++ (ThePlayer, (x_start a, y_start a))
                  :: new_bricks (next_ref a) positions)
          ++ [(ABlock blk, (x, y))]).
Proof.
  intros a' kept. subst a' kept.
  split; [apply unpress_switch_world |].
  split; [| split; [reflexivity |]].
  - unfold unpress_switch. cbn [switch_attr with_world].
    destruct (restore_bricks_frame positions (write_switch blk false a))
      as (_ & _ & _ & Hsw).
    rewrite Hsw. unfold write_switch. cbn [with_switch_attr switch_attr].
    apply lookup_insert_eq.
  - intros new_level Hlevel. rewrite unpress_switch_world.
    unfold reset_world. rewrite Hlevel.
    cbn [_world with_world next_ref add_player add_thing w_things].
    rewrite <- app_assoc. reflexivity.
Qed.

(** ** The press of a switch *)

Lemma same_object_false (t u : thing) :
  same_object t u = false <-> ident t <> ident u.
Proof. unfold same_object. apply bool_decide_eq_false. Qed.

Lemma player_has_no_id (t : thing) :
  same_object t ThePlayer = true -> get_id t = None.
Proof.
  unfold same_object. intros H. apply bool_decide_eq_true in H.
  destruct t; simpl in *; congruence.
Qed.

Lemma filter_ext_elem {A} (P Q : A -> Prop) `{!forall x, Decision (P x)}
    `{!forall x, Decision (Q x)} (l : list A) :
  (forall x, x ∈ l -> (P x <-> Q x)) -> filter P l = filter Q l.
Proof.
  induction l as [| x l IH]; intros Hext; [reflexivity |].
  rewrite !filter_cons.
  assert (Hx : P x <-> Q x) by (apply Hext; left).
  rewrite IH by (intros z Hz; apply Hext; right; exact Hz).
  destruct (decide (P x)), (decide (Q x)); tauto.
Qed.

Lemma position_in_filter (l : list (thing * (Z * Z))) (t u : thing) :
  same_object t u = false ->
  position_in (filter (fun e => same_object (fst e) u = false) l) t = position_in l t.
Proof.
  intros Htu. apply same_object_false in Htu.
  induction l as [| [v p] l IH]; [reflexivity |].
  rewrite filter_cons. cbn [fst position_in].
  destruct (decide (same_object v u = false)) as [Hv | Hv].
  - cbn [position_in]. rewrite IH. reflexivity.
  - rewrite IH.
    assert (Hvt : same_object v t = false).
    { apply same_object_false. intros Heq. apply Hv. apply same_object_false.
      congruence. }
    rewrite Hvt. reflexivity.
Qed.

Lemma position_in_NoDup (l : list (thing * (Z * Z))) (e : thing * (Z * Z)) :
  NoDup (idof <$> l) -> e ∈ l -> position_in l (fst e) = Some (snd e).
Proof.
  induction l as [| [v p] l IH]; intros Hnd He.
  - inversion He.
  - rewrite fmap_cons in Hnd. apply NoDup_cons in Hnd. destruct Hnd as [Hv Hnd].
    apply elem_of_cons in He. destruct He as [-> | He].
    + cbn [position_in fst snd]. rewrite same_object_refl. reflexivity.
    + cbn [position_in].
      assert (Hve : same_object v (fst e) = false).
      { apply same_object_false. intros Heq. apply Hv.
        apply list_elem_of_fmap. exists e. split; [exact Heq | exact He]. }
      rewrite Hve. apply IH; assumption.
Qed.

Lemma idof_inj_NoDup (l : list (thing * (Z * Z))) (e e' : thing * (Z * Z)) :
  NoDup (idof <$> l) -> e ∈ l -> e' ∈ l -> idof e = idof e' -> e = e'.
Proof.
  induction l as [| v l IH]; intros Hnd He He' Heq.
  - inversion He.
  - rewrite fmap_cons in Hnd. apply NoDup_cons in Hnd. destruct Hnd as [Hv Hnd].
    apply elem_of_cons in He. apply elem_of_cons in He'.
    destruct He as [-> | He], He' as [-> | He'].
    + reflexivity.
    + exfalso. apply Hv. apply list_elem_of_fmap. exists e'. split; assumption.
    + exfalso. apply Hv. apply list_elem_of_fmap. exists e. split; [symmetry |]; assumption.
    + apply IH; assumption.
Qed.

Lemma clear_bricks_spec (L : list (thing * (Z * Z))) :
  forall (w : World) (acc : list (Z * Z)),
    NoDup (idof <$> L) ->
    (forall e, e ∈ L -> position_in (w_things w) (fst e) = Some (snd e)) ->
    clear_bricks (fst <$> L) w acc
    = Some ({| w_things :=
                 filter (fun e => idof e ∉
                           (idof <$> filter (fun e => get_id (fst e) = Some "brick") L))
                   (w_things w) |},
            acc ++ (snd <$> filter (fun e => get_id (fst e) = Some "brick") L)).
Proof.
  induction L as [| [t0 p0] L IH]; intros w acc Hnd Hpos.
  - cbn [fmap list_fmap clear_bricks]. rewrite filter_nil, app_nil_r.
    cbn [fmap list_fmap]. f_equal. f_equal. destruct w as [things]; cbn [w_things].
    f_equal. symmetry. clear Hpos.
    induction things as [| e things IHt]; [reflexivity |].
    rewrite filter_cons_True by apply not_elem_of_nil. f_equal. exact IHt.
  - rewrite fmap_cons in Hnd. apply NoDup_cons in Hnd. destruct Hnd as [Ht0 Hnd].
    rewrite fmap_cons. cbn [fst clear_bricks].
    assert (Htail : forall w', (forall e, e ∈ L ->
                       position_in (w_things w') (fst e) = Some (snd e)) ->
              forall acc', clear_bricks (fst <$> L) w' acc' = _) by
      (intros w' Hw' acc'; exact (IH w' acc' Hnd Hw')).
    destruct (same_object t0 ThePlayer) eqn:Hplayer.
    + rewrite filter_cons_False
        by (cbn [fst]; rewrite (player_has_no_id _ Hplayer); discriminate).
      apply Htail. intros e He. apply Hpos. right. exact He.
    + case_bool_decide as Hbrick.
      * unfold get_position.
        assert (Hp0 : position_in (w_things w) t0 = Some p0)
          by (apply (Hpos (t0, p0)); left).
        rewrite Hp0.
        rewrite filter_cons_True by exact Hbrick.
        rewrite Htail.
        2:{ intros e He. unfold remove_block, remove_thing. cbn [w_things].
            rewrite position_in_filter; [apply Hpos; right; exact He |].
            apply same_object_false. intros Heq. apply Ht0.
            apply list_elem_of_fmap. exists e. split; [symmetry; exact Heq | exact He]. }
        f_equal. f_equal.
        -- f_equal. unfold remove_block, remove_thing. cbn [w_things].
           rewrite list_filter_filter. apply list_filter_iff. intros e.
           rewrite fmap_cons, not_elem_of_cons. cbn [idof fst].
           rewrite same_object_false. unfold idof. tauto.
        -- rewrite fmap_cons, <- app_assoc. reflexivity.
      * rewrite filter_cons_False by exact Hbrick.
        apply Htail. intros e He. apply Hpos. right. exact He.
Qed.

Lemma clear_bricks_in_range (w : World) (x y : Z) :
  wf_world w ->
  clear_bricks (get_things_in_range w x y (BLOCK_SIZE * 10)) w []
  = Some ({| w_things := filter (fun e => ~ cleared x y e) (w_things w) |},
          snd <$> filter (cleared x y) (w_things w)).
Proof.
  intros Hwf. unfold get_things_in_range.
  set (inr := fun e : thing * (Z * Z) =>
                in_range (fst e) (snd e) x y (BLOCK_SIZE * 10) = true).
  rewrite clear_bricks_spec.
  - cbn [app].
    assert (Hsame : filter (fun e => get_id (fst e) = Some "brick") (filter inr (w_things w))
                    = filter (cleared x y) (w_things w)).
    { rewrite list_filter_filter. apply list_filter_iff.
      intros e; unfold cleared, inr; tauto. }
    rewrite Hsame. f_equal. f_equal. f_equal.
    apply filter_ext_elem. intros e He. split.
    + intros Hno Hc. apply Hno. apply list_elem_of_fmap. exists e.
      split; [reflexivity |]. apply list_elem_of_filter. split; assumption.
    + intros Hno Hin. apply list_elem_of_fmap in Hin. destruct Hin as (e' & Heq & He').
      apply list_elem_of_filter in He'. destruct He' as [Hc He'].
      assert (e = e') by (eapply idof_inj_NoDup; eassumption).
      subst e'. exact (Hno Hc).
  - eapply sublist_NoDup; [exact Hwf |]. apply fmap_sublist, sublist_filter.
  - intros e He. apply list_elem_of_filter in He. destruct He as [_ He].
    apply position_in_NoDup; assumption.
Qed.

Lemma press_switch_spec (blk : block) (a : MarioApp) (x y : Z) :
  wf_world (_world a) ->
  (ABlock blk, (x, y)) ∈ w_things (_world a) ->
  let pressed := {| b_ref := next_ref a; b_class := Switch_Pressed |} in
  let positions := snd <$> filter (cleared x y) (w_things (_world a)) in
  exists a',
    press_switch blk a = Some (a', true)
    /\ w_things (_world a')
         = filter (fun e => ~ cleared x y e /\ same_object (fst e) (ABlock blk) = false)
             (w_things (_world a))
           ++ [(ABlock pressed, (x, y))]
    /\ _master a'
         = after (TIMING switch_key) (unpress_switch_cb blk x y pressed positions)
             (_master a)
    /\ switch_attr a' = <[b_ref blk := true]> (switch_attr a)
    /\ _player a' = _player a
    /\ tempo_attr a' = tempo_attr a
    /\ invincibility a' = invincibility a
    /\ next_ref a' = S (next_ref a).
Proof.
  intros Hwf Hin pressed positions. unfold press_switch.
  cbn [_world with_switch]. unfold get_position.
  assert (Hp : position_in (w_things (_world a)) (ABlock blk) = Some (x, y))
    by exact (position_in_NoDup _ (ABlock blk, (x, y)) Hwf Hin).
  rewrite Hp.
  rewrite (clear_bricks_in_range _ x y Hwf).
  eexists. split; [reflexivity |].
  cbn [_world _master _player switch_attr tempo_attr invincibility next_ref
       with_master with_world with_next_ref with_switch_attr with_switch write_switch
       new_block add_block add_thing remove_block remove_thing w_things fst snd].
  rewrite list_filter_filter.
  repeat split.
  f_equal. apply list_filter_iff. intros e. tauto.
Qed.

Lemma pressed_placeholder_rejected (q : ref) (s : MarioApp) :
  let p := {| b_ref := q; b_class := Switch_Pressed |} in
  exists s',
    _handle_player_collide_block p s = Some (s', false)
    /\ _world s' = _world s /\ _master s' = _master s
    /\ switch_attr s' = switch_attr s.
Proof.
  intros p. unfold _handle_player_collide_block.
  change (block_get_id p) with "switch_pressed".
  cbn [String.eqb Ascii.eqb Bool.eqb andb block_on_hit b_class p].
  destruct (String.eqb _ "B"); eexists; (split; [reflexivity |]); repeat split.
Qed.

Lemma triggered_switch_rejected (r : ref) (s : MarioApp) :
  let blk := {| b_ref := r; b_class := Switch |} in
  read_switch blk s = Some true ->
  exists s',
    _handle_player_collide_block blk s = Some (s', false)
    /\ _world s' = _world s /\ _master s' = _master s
    /\ switch_attr s' = switch_attr s.
Proof.
  intros blk Hsw. unfold _handle_player_collide_block.
  change (block_get_id blk) with "switch".
  cbn [String.eqb Ascii.eqb Bool.eqb andb block_on_hit b_class blk].
  assert (Hland : forall p, read_switch blk (with_player p s) = Some true)
    by (intros p; exact Hsw).
  destruct (String.eqb _ "B"); rewrite ?Hland, ?Hsw; cbn [negb];
    eexists; (split; [reflexivity |]); repeat split.
Qed.

Lemma unpressed_switch_landing (r : ref) (a : MarioApp) :
  let blk := {| b_ref := r; b_class := Switch |} in
  read_switch blk a = Some false ->
  get_collision_direction (_world a) (ABlock blk) ThePlayer = "B" ->
  _handle_player_collide_block blk a
  = press_switch blk (with_player (set_jumping false (_player a)) a).
Proof.
  intros blk Hsw Hd. unfold _handle_player_collide_block.
  change (block_get_id blk) with "switch".
  cbn [String.eqb Ascii.eqb Bool.eqb andb block_on_hit b_class blk].
  rewrite Hd. cbn [String.eqb Ascii.eqb Bool.eqb _world with_player].
  rewrite Hd. cbn [String.eqb Ascii.eqb Bool.eqb].
  change (read_switch blk (with_player (set_jumping false (_player a)) a))
    with (read_switch blk a).
  rewrite Hsw. reflexivity.
Qed.

Lemma builder_ids_are_not_brick (c : ascii) (id : string) :
  In (c, id) (MOBS ++ ITEMS) -> id <> "brick".
Proof.
  simpl. intros H.
  repeat (destruct H as [[= _ <-] | H]; [discriminate |]). contradiction.
Qed.

(** C2, as the code has it: the area-clear needs the landing.  When the
    player lands on a switch that is not switched (the resolver answers
    "B"), the handler takes every entity in range whose identifier is
    "brick" out of the world, puts a pressed placeholder in the place of
    the switch, schedules the revert for [TIMING switch_key] later and
    marks the switch; from then on a collision with that switch, and a
    collision with a pressed placeholder, changes neither the world nor
    the queue and is rejected. *)
Theorem switch_press_once (r : ref) (a : MarioApp) (x y : Z) :
  let blk := {| b_ref := r; b_class := Switch |} in
  wf_world (_world a) ->
  (ABlock blk, (x, y)) ∈ w_things (_world a) ->
  read_switch blk a = Some false ->
  get_collision_direction (_world a) (ABlock blk) ThePlayer = "B" ->
  let pressed := {| b_ref := next_ref a; b_class := Switch_Pressed |} in
  let positions := snd <$> filter (cleared x y) (w_things (_world a)) in
  exists a',
    _handle_player_collide_block blk a = Some (a', true)
    /\ w_things (_world a')
         = filter (fun e => ~ cleared x y e /\ same_object (fst e) (ABlock blk) = false)
             (w_things (_world a))
           ++ [(ABlock pressed, (x, y))]
    /\ (forall e, e ∈ w_things (_world a') -> ~ cleared x y e)
    /\ pending (_master a')
         = enqueue (clock (_master a) + TIMING switch_key,
                    unpress_switch_cb blk x y pressed positions)
             (pending (_master a))
    /\ read_switch blk a' = Some true
    /\ (forall s, read_switch blk s = Some true ->
          exists s', _handle_player_collide_block blk s = Some (s', false)
                     /\ _world s' = _world s /\ _master s' = _master s
                     /\ switch_attr s' = switch_attr s)
    /\ (forall s, exists s',
          _handle_player_collide_block pressed s = Some (s', false)
          /\ _world s' = _world s /\ _master s' = _master s
          /\ switch_attr s' = switch_attr s).
Proof.
  intros blk Hwf Hin Hsw Hd pressed positions.
  pose proof (unpressed_switch_landing r a Hsw Hd) as Hland.
  cbv zeta in Hland. fold blk in Hland. rewrite Hland.
  destruct (press_switch_spec blk (with_player (set_jumping false (_player a)) a) x y
              Hwf Hin) as (a' & Hpress & Hw & Hm & Hattr & _).
  cbn [_world _master switch_attr next_ref with_player] in Hw, Hm, Hattr.
  exists a'. split; [exact Hpress |]. split; [exact Hw |].
  split; [| split; [| split; [| split]]].
  - intros e He. rewrite Hw in He. apply elem_of_app in He. destruct He as [He | He].
    + apply list_elem_of_filter in He. tauto.
    + apply list_elem_of_singleton in He. subst e.
      unfold cleared. cbn [fst get_id]. intros [Hid _]. discriminate Hid.
  - rewrite Hm. reflexivity.
  - unfold read_switch. cbn [b_class blk b_ref]. rewrite Hattr.
    rewrite lookup_insert_eq. reflexivity.
  - intros s Hs. apply (triggered_switch_rejected r s Hs).
  - intros s. apply (pressed_placeholder_rejected (next_ref a) s).
Qed.

(** C10: when the player lands on a switch that is not switched, what
    leaves the world is the switch and the entities in range whose
    identifier is "brick"; every other entity stays where it was: the
    player, the blocks "brick_base" and "cube", the mobs and the items
    (none of which is called "brick"), in range or not.  The only entity
    that comes in is the pressed placeholder, and apart from the jumping
    flag that the landing clears the player is as before. *)
Theorem switch_press_frame (r : ref) (a : MarioApp) (x y : Z) :
  let blk := {| b_ref := r; b_class := Switch |} in
  wf_world (_world a) ->
  (ABlock blk, (x, y)) ∈ w_things (_world a) ->
  read_switch blk a = Some false ->
  get_collision_direction (_world a) (ABlock blk) ThePlayer = "B" ->
  exists a',
    _handle_player_collide_block blk a = Some (a', true)
    /\ (forall e, e ∈ w_things (_world a) ->
          (e ∈ w_things (_world a') <->
           ~ (same_object (fst e) (ABlock blk) = true \/ cleared x y e)))
    /\ (forall e, e ∈ w_things (_world a') ->
          e ∈ w_things (_world a)
          \/ e = (ABlock {| b_ref := next_ref a; b_class := Switch_Pressed |}, (x, y)))
    /\ (forall p, (ThePlayer, p) ∈ w_things (_world a) ->
          (ThePlayer, p) ∈ w_things (_world a'))
    /\ (forall q id p, id = "brick_base" \/ id = "cube" ->
          (ABlock {| b_ref := q; b_class := Block_ id |}, p) ∈ w_things (_world a) ->
          (ABlock {| b_ref := q; b_class := Block_ id |}, p) ∈ w_things (_world a'))
    /\ (forall m p, m_id m <> "brick" ->
          (AMob m, p) ∈ w_things (_world a) -> (AMob m, p) ∈ w_things (_world a'))
    /\ (forall i p, i_id i <> "brick" ->
          (AnItem i, p) ∈ w_things (_world a) -> (AnItem i, p) ∈ w_things (_world a'))
    /\ tempo_attr a' = tempo_attr a
    /\ _player a' = set_jumping false (_player a).
Proof.
  intros blk Hwf Hin Hsw Hd.
  pose proof (unpressed_switch_landing r a Hsw Hd) as Hland.
  cbv zeta in Hland. fold blk in Hland. rewrite Hland.
  destruct (press_switch_spec blk (with_player (set_jumping false (_player a)) a) x y
              Hwf Hin) as (a' & Hpress & Hw & _ & _ & Hp & Ht & _).
  cbn [_world _player tempo_attr next_ref with_player] in Hw, Hp, Ht.
  set (pressed := {| b_ref := next_ref a; b_class := Switch_Pressed |}) in *.
  assert (Hstay : forall e, e ∈ w_things (_world a) ->
            same_object (fst e) (ABlock blk) = false -> ~ cleared x y e ->
            e ∈ w_things (_world a')).
  { intros e He Hsame Hc. rewrite Hw. apply elem_of_app. left.
    apply list_elem_of_filter. tauto. }
  exists a'. split; [exact Hpress |].
  split; [| split; [| split; [| split; [| split; [| split; [| split]]]]]].
  - intros e He. split.
    + intros He' [Hsame | Hc].
      * rewrite Hw in He'. apply elem_of_app in He'. destruct He' as [He' | He'].
        -- apply list_elem_of_filter in He'. destruct He' as [[_ Hf] _]. congruence.
        -- apply list_elem_of_singleton in He'. subst e.
           apply bool_decide_eq_true in Hsame. cbn [fst ident] in Hsame.
           assert (Heq : (ABlock pressed, (x, y)) = (ABlock blk, (x, y))).
           { eapply idof_inj_NoDup; [exact Hwf | exact He | exact Hin |].
             unfold idof. cbn [fst ident]. exact Hsame. }
           discriminate Heq.
      * rewrite Hw in He'. apply elem_of_app in He'. destruct He' as [He' | He'].
        -- apply list_elem_of_filter in He'. tauto.
        -- apply list_elem_of_singleton in He'. subst e.
           destruct Hc as [Hid _]. discriminate Hid.
    + intros Hno. apply Hstay; [exact He | |].
      * destruct (same_object (fst e) (ABlock blk)); [exfalso; apply Hno; left |];
          reflexivity.
      * intros Hc. apply Hno. right. exact Hc.
  - intros e He. rewrite Hw in He. apply elem_of_app in He. destruct He as [He | He].
    + apply list_elem_of_filter in He. left. tauto.
    + apply list_elem_of_singleton in He. right. exact He.
  - intros p Hp'. apply Hstay; [exact Hp' | reflexivity |].
    intros [Hid _]. discriminate Hid.
  - intros q id p Hid Hq.
    assert (Hnb : id <> "brick") by (destruct Hid as [-> | ->]; discriminate).
    apply Hstay; [exact Hq | |].
    + apply same_object_false. intros Heq.
      assert (Hsame : (ABlock {| b_ref := q; b_class := Block_ id |}, p)
                      = (ABlock blk, (x, y))).
      { eapply idof_inj_NoDup; [exact Hwf | exact Hq | exact Hin | exact Heq]. }
      discriminate Hsame.
    + intros [Hbrick _]. cbn [fst get_id block_get_id b_class] in Hbrick. congruence.
  - intros m p Hid Hm.
    apply Hstay; [exact Hm | |].
    + apply same_object_false. intros Heq.
      assert (Hsame : (AMob m, p) = (ABlock blk, (x, y))).
      { eapply idof_inj_NoDup; [exact Hwf | exact Hm | exact Hin | exact Heq]. }
      discriminate Hsame.
    + intros [Hbrick _]. cbn [fst get_id] in Hbrick. congruence.
  - intros i p Hid Hi.
    apply Hstay; [exact Hi | |].
    + apply same_object_false. intros Heq.
      assert (Hsame : (AnItem i, p) = (ABlock blk, (x, y))).
      { eapply idof_inj_NoDup; [exact Hwf | exact Hi | exact Hin | exact Heq]. }
      discriminate Hsame.
    + intros [Hbrick _]. cbn [fst get_id] in Hbrick. congruence.
  - exact Ht.
  - exact Hp.
Qed.

End Proofs.

(** * The handlers on the concrete level *)

Example goal_line_names_next_level :
  strip " " (split_last ":" "goal : level2.txt") = "level2.txt".
Proof. reflexivity. Qed.

Example press_in_level1 :
  (fun r => (w_things (_world (fst r)), snd r))
    <$> _handle_player_collide_block (E := Demo.env "B" true) Demo.the_switch
          (Demo.app 3 true)
  = Some ([ (ThePlayer, (0, 0));
            (ABlock Demo.base_near, (48, 16));
            (ABlock Demo.brick_far, (480, 16));
            (ABlock Demo.the_flag, (320, 16));
            (ABlock Demo.the_bounce, (64, 16));
            (AMob Demo.goomba, (96, 0));
            (AMob Demo.floaty, (16, 0));
            (AnItem Demo.the_star, (112, 0));
            (AnItem Demo.second_star, (128, 0));
            (ABlock {| b_ref := 100%nat; b_class := Switch_Pressed |}, (0, 16)) ],
          true).
Proof. vm_compute. reflexivity. Qed.

(** The press followed by its revert, with no level change in between,
    gives the bricks and the switch back. *)
Example press_then_revert :
  (fun r => w_things (_world (tick 1000 (fst r))))
    <$> _handle_player_collide_block (E := Demo.env "B" true) Demo.the_switch
          (Demo.app 3 true)
  = Some [ (ThePlayer, (0, 0));
           (ABlock Demo.base_near, (48, 16));
           (ABlock Demo.brick_far, (480, 16));
           (ABlock Demo.the_flag, (320, 16));
           (ABlock Demo.the_bounce, (64, 16));
           (AMob Demo.goomba, (96, 0));
           (AMob Demo.floaty, (16, 0));
           (AnItem Demo.the_star, (112, 0));
           (AnItem Demo.second_star, (128, 0));
           (ABlock {| b_ref := 101%nat; b_class := Block_ "brick" |}, (32, 16));
           (ABlock Demo.the_switch, (0, 16)) ].
Proof. vm_compute. reflexivity. Qed.

(** ** Where the code departs from the specification *)

(** C1 fails on the code: the switch of the first level is pressed, the
    flag takes the player to the next level before the second is over,
    and the revert that fires afterwards puts a brick and the switch of
    the first level into the world of the next one.  The brick goes in
    before the placeholder is looked for, so the world is changed whatever
    the removal of an absent block does. *)
Lemma stale_revert_changes_next_level :
  exists a1 a2,
    _handle_player_collide_block (E := Demo.env "B" true) Demo.the_switch
      (Demo.app 3 true) = Some (a1, true)
    /\ pending (_master a1)
         = [ (1000, unpress_switch_cb Demo.the_switch 0 16
                      {| b_ref := 100%nat; b_class := Switch_Pressed |} [(32, 16)]) ]
    /\ _handle_player_collide_block (E := Demo.env "B" true) Demo.the_flag a1
         = Some (a2, true)
    /\ w_things (_world a2) = [ (ThePlayer, (0, 0)) ]
    /\ w_things (_world (tick 1000 a2))
         = [ (ThePlayer, (0, 0));
             (ABlock {| b_ref := 101%nat; b_class := Block_ "brick" |}, (32, 16));
             (ABlock Demo.the_switch, (0, 16)) ].
Proof.
  eexists _, _.
  split; [vm_compute; reflexivity |].
  split; [vm_compute; reflexivity |].
  split; [vm_compute; reflexivity |].
  split; vm_compute; reflexivity.
Qed.

(** C2 fails on the code: a contact with the side of an unpressed switch
    (the resolver answers "L") clears nothing, schedules nothing and
    leaves the switch in place. *)
Lemma side_contact_presses_nothing :
  _handle_player_collide_block (E := Demo.env "L" true) Demo.the_switch
    (Demo.app 3 true)
  = Some (Demo.app 3 true, true)
  /\ (ABlock Demo.brick_near, (32, 16)) ∈ w_things (_world (Demo.app 3 true))
  /\ @in_range (Demo.env "L" true) (ABlock Demo.brick_near) (32, 16)
       0 16 (BLOCK_SIZE * 10) = true
  /\ pending (_master (Demo.app 3 true)) = [].
Proof.
  split; [vm_compute; reflexivity |].
  split; [apply list_elem_of_In; simpl; tauto |].
  split; reflexivity.
Qed.

(** C3 fails on the code: a contact with the side of the flag changes the
    level and leaves the health at 3 of 5: there is no partial heal. *)
Lemma flag_side_contact_heals_nothing :
  (fun r => (get_health (_player (fst r)), get_max_health (_player (fst r)), snd r))
    <$> _handle_player_collide_block (E := Demo.env "L" true) Demo.the_flag
          (Demo.app 3 false)
  = Some (3, 5, true)
  /\ get_health (_player (Demo.app 3 false)) = 3.
Proof. split; vm_compute; reflexivity. Qed.


(** C8 fails on the code: a jumping player that touches the side of a
    bounce block keeps its velocity. *)
Lemma airborne_side_contact_no_bounce :
  (fun r => get_velocity (_player (fst r)))
    <$> _handle_player_collide_block (E := Demo.env "L" true) Demo.the_bounce
          (Demo.app 3 true)
  = Some (0, 0)
  /\ - BLOCK_SIZE * JUMP_SIZE = -160.
Proof. split; vm_compute; reflexivity. Qed.

(** C4 at the failing input: a mushroom that runs into a pressed switch is
    let through to the physical collision (and turns round), where the
    claim has the collision rejected. *)
Theorem mushroom_collides_with_pressed_switch :
  let r := _handle_mob_collide_block (E := Demo.env "L" true) Demo.goomba
             Demo.placeholder (Demo.app 3 false) in
  snd r = true /\ get_tempo Demo.goomba (fst r) = -15.
Proof. split; vm_compute; reflexivity. Qed.

(** ** The theorems at the concrete level *)

Lemma invincible_player_removes_mob_witness :
  let a := with_invincibility true (Demo.app 3 false) in
  let a' := fst (_handle_player_collide_mob (E := Demo.env "R" true) Demo.goomba a) in
  invincibility a = true
  /\ is_dead (_player a) = false
  /\ _world a' = remove_mob Demo.goomba (_world a)
  /\ get_health (_player a') = 3.
Proof.
  intros a a'.
  split; [reflexivity |]. split; [reflexivity |].
  destruct (invincible_player_removes_mob (E := Demo.env "R" true) Demo.goomba a
              eq_refl eq_refl) as (Hw & _ & Hh & _).
  split; [exact Hw | exact Hh].
Defined.

Lemma mushroom_collision_witness :
  let a := Demo.app 3 false in
  invincibility a = false
  /\ m_id Demo.goomba = "mushroom"
  /\ 0 < get_health (_player a) <= get_max_health (_player a)
  /\ exists a1,
       get_health (_player a1) = 2
       /\ get_velocity (_player a1) = (-100, 0)
       /\ _handle_player_collide_mob (E := Demo.env "R" true) Demo.goomba a = (a1, true).
Proof.
  intros a.
  assert (Hh : 0 < get_health (_player a) <= get_max_health (_player a))
    by (simpl; lia).
  split; [reflexivity |]. split; [reflexivity |]. split; [exact Hh |].
  destruct (mushroom_collision (E := Demo.env "R" true) Demo.goomba a
              eq_refl eq_refl Hh) as [Hside _].
  destruct (Hside (or_introl eq_refl)) as (a1 & Hh1 & Hv & _ & _ & Hr).
  exists a1. split; [exact Hh1 |]. split; [exact Hv |].
  rewrite Hr, Hh1. reflexivity.
Defined.

Lemma flag_collision_witness :
  let a := Demo.app 3 true in
  let a1 := with_world {| w_things := [(ThePlayer, (0, 0))] |} a in
  goto_next_level (E := Demo.env "B" true) "goal" a = Some a1
  /\ exists a',
       _handle_player_collide_block (E := Demo.env "B" true) Demo.the_flag a
         = Some (a', true)
       /\ get_health (_player a') = 5.
Proof.
  intros a a1. split; [reflexivity |].
  destruct (flag_collision (E := Demo.env "B" true) 5%nat a a1 eq_refl)
    as (a' & Hret & _ & _ & Htop & _).
  exists a'. split; [exact Hret |].
  destruct (Htop eq_refl) as [Hp _]. rewrite Hp. reflexivity.
Defined.


Lemma switch_press_once_witness :
  let a := Demo.app 3 true in
  wf_world (_world a)
  /\ (ABlock Demo.the_switch, (0, 16)) ∈ w_things (_world a)
  /\ read_switch Demo.the_switch a = Some false
  /\ get_collision_direction (External := Demo.env "B" true) (_world a)
       (ABlock Demo.the_switch) ThePlayer = "B"
  /\ exists a',
       _handle_player_collide_block (E := Demo.env "B" true) Demo.the_switch a
         = Some (a', true)
       /\ read_switch Demo.the_switch a' = Some true
       /\ (forall e, e ∈ w_things (_world a') ->
             ~ cleared (E := Demo.env "B" true) 0 16 e).
Proof.
  intros a.
  assert (Hwf : wf_world (_world a))
    by (unfold wf_world; apply (bool_decide_unpack _); vm_compute; exact I).
  assert (Hin : (ABlock Demo.the_switch, (0, 16)) ∈ w_things (_world a))
    by (apply list_elem_of_In; simpl; tauto).
  split; [exact Hwf |]. split; [exact Hin |]. split; [reflexivity |].
  split; [reflexivity |].
  destruct (switch_press_once (E := Demo.env "B" true) 1%nat a 0 16 Hwf Hin
              eq_refl eq_refl) as (a' & Hret & _ & Hgone & _ & Hsw & _).
  exists a'. split; [exact Hret |]. split; [exact Hsw | exact Hgone].
Defined.

Lemma switch_press_frame_witness :
  let a := Demo.app 3 true in
  wf_world (_world a)
  /\ (ABlock Demo.the_switch, (0, 16)) ∈ w_things (_world a)
  /\ read_switch Demo.the_switch a = Some false
  /\ get_collision_direction (External := Demo.env "B" true) (_world a)
       (ABlock Demo.the_switch) ThePlayer = "B"
  /\ exists a',
       _handle_player_collide_block (E := Demo.env "B" true) Demo.the_switch a
         = Some (a', true)
       /\ (AMob Demo.floaty, (16, 0)) ∈ w_things (_world a')
       /\ (ABlock Demo.base_near, (48, 16)) ∈ w_things (_world a').
Proof.
  intros a.
  assert (Hwf : wf_world (_world a))
    by (unfold wf_world; apply (bool_decide_unpack _); vm_compute; exact I).
  assert (Hin : forall e, In e (w_things (_world a)) -> e ∈ w_things (_world a))
    by (intros e He; apply list_elem_of_In; exact He).
  assert (Hsw : (ABlock Demo.the_switch, (0, 16)) ∈ w_things (_world a))
    by (apply Hin; simpl; tauto).
  split; [exact Hwf |]. split; [exact Hsw |]. split; [reflexivity |].
  split; [reflexivity |].
  destruct (switch_press_frame (E := Demo.env "B" true) 1%nat a 0 16 Hwf
              Hsw eq_refl eq_refl)
    as (a' & Hret & _ & _ & _ & Hblock & Hmob & _).
  exists a'. split; [exact Hret |]. split.
  - apply Hmob; [discriminate |]. apply Hin. simpl. tauto.
  - apply (Hblock 3%nat "brick_base" (48, 16)); [left; reflexivity |].
    apply Hin. simpl. tauto.
Defined.

(** * More of [app.py] *)

(** ** [load_config] *)

Section LoadConfigFacts.
Variable int : string -> option Z.

Lemma read_sections_under_header (content : list string) :
  forall (header : string) (config : gmap string (list string)),
    is_Some (config !! header) ->
    is_Some (read_sections content (Some header) config).
Proof.
  induction content as [| line rest IH]; intros header config Hh; cbn [read_sections].
  - eauto.
  - destruct (startswith (strip "010" line) "==").
    + apply IH. rewrite lookup_insert_eq. eauto.
    + destruct Hh as [lines Hh]. rewrite Hh. apply IH.
      rewrite lookup_insert_eq. eauto.
Qed.

(** X1: the grouping of the lines of the configuration file into sections
    fails exactly when the file begins with a line that is not a header;
    an empty file, and any file that begins with a header, is grouped. *)
Theorem read_sections_fails_on_orphan_line (content : list string) :
  is_Some (read_sections content None ∅)
  <-> match content with
      | [] => True
      | line :: _ => is_header line = true
      end.
Proof.
  destruct content as [| line rest]; cbn [read_sections].
  - split; eauto.
  - unfold is_header. destruct (startswith (strip "010" line) "==").
    + split; [reflexivity |]. intros _. apply read_sections_under_header.
      rewrite lookup_insert_eq. eauto.
    + split; [intros [? [=]] | discriminate].
Qed.

Lemma read_sections_body (body post : list string) (header : string) :
  Forall (fun l => is_header l = false) body ->
  forall (acc : list string) (config : gmap string (list string)),
    config !! header = Some acc ->
    read_sections (body ++ post) (Some header) config
    = read_sections post (Some header)
        (<[header := acc ++ (strip "010" <$> body)]> config).
Proof.
  induction 1 as [| line body Hline _ IH]; intros acc config Hacc.
  - cbn [app fmap list_fmap]. rewrite app_nil_r. rewrite insert_id by exact Hacc.
    reflexivity.
  - cbn [app read_sections]. unfold is_header in Hline. rewrite Hline, Hacc.
    rewrite (IH (acc ++ [strip "010" line])) by apply lookup_insert_eq.
    rewrite insert_insert_eq, fmap_cons, <- app_assoc. reflexivity.
Qed.

Lemma read_sections_elsewhere (post : list string) (header : string) :
  (forall l, l ∈ post -> is_header l = true -> strip "010" l <> header) ->
  forall (current : option string) (config result : gmap string (list string)),
    current <> Some header ->
    read_sections post current config = Some result ->
    result !! header = config !! header.
Proof.
  induction post as [| line rest IH]; intros Hpost current config result Hcur;
    cbn [read_sections].
  - intros [= <-]. reflexivity.
  - assert (Hrest : forall l, l ∈ rest -> is_header l = true -> strip "010" l <> header)
      by (intros l Hl; apply Hpost; right; exact Hl).
    destruct (startswith (strip "010" line) "==") eqn:Hline.
    + assert (Hne : strip "010" line <> header) by (apply Hpost; [left | exact Hline]).
      intros Hres. apply (IH Hrest) in Hres; [| congruence].
      rewrite Hres. apply lookup_insert_ne. exact Hne.
    + destruct current as [h |]; [| discriminate].
      destruct (config !! h) as [lines |]; [| discriminate].
      intros Hres. apply (IH Hrest) in Hres; [| exact Hcur].
      rewrite Hres. apply lookup_insert_ne. congruence.
Qed.

Lemma read_sections_section (pre body post : list string) (h : string) :
  is_header h = true ->
  Forall (fun l => is_header l = false) body ->
  match post with [] => True | l :: _ => is_header l = true end ->
  (forall l, l ∈ post -> is_header l = true -> strip "010" l <> strip "010" h) ->
  forall (current : option string) (config result : gmap string (list string)),
    read_sections (pre ++ h :: body ++ post) current config = Some result ->
    result !! strip "010" h = Some (strip "010" <$> body).
Proof.
  intros Hh Hbody Hfirst Hpost.
  induction pre as [| line pre IH]; intros current config result.
  - cbn [app read_sections]. unfold is_header in Hh. rewrite Hh.
    rewrite (read_sections_body body post _ Hbody []) by apply lookup_insert_eq.
    rewrite insert_insert_eq. cbn [app]. intros Hres.
    destruct post as [| l post'].
    + cbn [read_sections] in Hres. injection Hres as <-. apply lookup_insert_eq.
    + cbn [read_sections] in Hres. unfold is_header in Hfirst. rewrite Hfirst in Hres.
      assert (Hl : strip "010" l <> strip "010" h) by (apply Hpost; [left | exact Hfirst]).
      apply (read_sections_elsewhere post' (strip "010" h)) in Hres;
        [| intros l' Hl'; apply Hpost; right; exact Hl' | congruence].
      rewrite Hres, lookup_insert_ne by exact Hl. apply lookup_insert_eq.
  - cbn [app read_sections].
    destruct (startswith (strip "010" line) "=="); [apply IH |].
    destruct current as [c |]; [| discriminate].
    destruct (config !! c); [apply IH | discriminate].
Qed.

(** X2: in a configuration that loads, the section of a header is the list
    of the lines, each without its line break, between the last line with
    that header and the next header line or the end of the file. *)
Theorem load_config_section (pre body post : list string) (h : string)
    (config : gmap string (list string)) (attrs : gmap string value) :
  load_config int (pre ++ h :: body ++ post) = Some (config, attrs) ->
  is_header h = true ->
  Forall (fun l => is_header l = false) body ->
  match post with [] => True | l :: _ => is_header l = true end ->
  (forall l, l ∈ post -> is_header l = true -> strip "010" l <> strip "010" h) ->
  config !! strip "010" h = Some (strip "010" <$> body).
Proof.
  unfold load_config. intros Hload Hh Hbody Hfirst Hpost.
  destruct (read_sections (pre ++ h :: body ++ post) None ∅) as [c |] eqn:Hread;
    [| discriminate].
  cbn [mbind option_bind] in Hload.
  destruct (read_attributes int c); [| discriminate].
  injection Hload as <- _.
  eapply read_sections_section; eassumption.
Qed.

Lemma fold_attrs_keeps (f : option (gmap string value) -> string -> option (gmap string value))
    (P : string -> Prop) (name : string) :
  (forall l, f None l = None) ->
  (forall attrs attrs' l, P l -> f (Some attrs) l = Some attrs' ->
     attrs' !! name = attrs !! name) ->
  forall lines attrs attrs',
    Forall P lines ->
    fold_left f lines (Some attrs) = Some attrs' ->
    attrs' !! name = attrs !! name.
Proof.
  intros Hnone Hkeep lines.
  assert (Hdead : forall ls, fold_left f ls None = None)
    by (induction ls as [| l ls IHl]; cbn [fold_left]; [| rewrite Hnone]; auto).
  induction lines as [| l lines IH]; intros attrs attrs' HP; cbn [fold_left].
  - intros [= <-]. reflexivity.
  - apply Forall_cons in HP. destruct HP as [Hl HP].
    destruct (f (Some attrs) l) as [attrs1 |] eqn:Hstep.
    + intros Hfold. rewrite (IH _ _ HP Hfold). eapply Hkeep; eassumption.
    + rewrite Hdead. discriminate.
Qed.

Lemma fold_attrs_split (f : option (gmap string value) -> string -> option (gmap string value))
    (l1 l2 : list string) (i : string) (init : option (gmap string value))
    (attrs' : gmap string value) :
  (forall l, f None l = None) ->
  fold_left f (l1 ++ i :: l2) init = Some attrs' ->
  exists attrs0 attrs1,
    fold_left f l1 init = Some attrs0
    /\ f (Some attrs0) i = Some attrs1
    /\ fold_left f l2 (Some attrs1) = Some attrs'.
Proof.
  intros Hnone.
  assert (Hdead : forall ls, fold_left f ls None = None)
    by (induction ls as [| l ls IHl]; cbn [fold_left]; [| rewrite Hnone]; auto).
  rewrite fold_left_app. cbn [fold_left]. intros Hfold.
  destruct (fold_left f l1 init) as [attrs0 |]; [| rewrite Hnone, Hdead in Hfold; discriminate].
  destruct (f (Some attrs0) i) as [attrs1 |] eqn:Hi; [| rewrite Hdead in Hfold; discriminate].
  eauto.
Qed.

Ltac read_cases :=
  unfold read_world_line, read_player_line, read_int, read_str in *;
  cbn [mbind option_bind] in *;
  repeat (case_match; simplify_eq; cbn [mbind option_bind] in *);
  simplify_map_eq; eauto.



Lemma player_line_int (key name : string) (attrs attrs' : gmap string value) (l : string) :
  (key, name) ∈ player_int_keys ->
  read_player_line int (Some attrs) l = Some attrs' ->
  if startswith l key
  then exists n, int (value_of l) = Some n /\ attrs' !! name = Some (VInt n)
  else attrs' !! name = attrs !! name.
Proof.
  intros Hkey H. apply list_elem_of_In in Hkey. cbn [In player_int_keys] in Hkey.
  repeat (destruct Hkey as [[= <- <-] | Hkey]; [read_cases |]). contradiction.
Qed.

Lemma player_line_bad_int (key name : string) (attrs : gmap string value) (l : string) :
  (key, name) ∈ player_int_keys ->
  startswith l key = true ->
  int (value_of l) = None ->
  read_player_line int (Some attrs) l = None.
Proof.
  intros Hkey Hl Hint. apply list_elem_of_In in Hkey. cbn [In player_int_keys] in Hkey.
  repeat (destruct Hkey as [[= <- <-] | Hkey]; [read_cases |]). contradiction.
Qed.

Lemma load_config_inv (content : list string)
    (config : gmap string (list string)) (attrs : gmap string value) :
  load_config int content = Some (config, attrs) ->
  read_sections content None ∅ = Some config
  /\ read_attributes int config = Some attrs.
Proof.
  unfold load_config. intros Hload.
  destruct (read_sections content None ∅) as [c |]; [| discriminate].
  cbn [mbind option_bind] in Hload.
  destruct (read_attributes int c) as [at' |] eqn:Hat; [| discriminate].
  injection Hload as <- <-. split; [reflexivity | exact Hat].
Qed.


(** X4: in a configuration that loads, each of the attributes [x_start],
    [y_start], [mass], [health] and [max_velocity] is the integer that
    [int] reads from the value of the last line of the Player section
    that starts with its key. *)
Theorem load_config_player_int (content : list string)
    (config : gmap string (list string)) (attrs : gmap string value)
    (key name : string) (l1 l2 : list string) (i : string) :
  load_config int content = Some (config, attrs) ->
  (key, name) ∈ player_int_keys ->
  config !! "==Player==" = Some (l1 ++ i :: l2) ->
  startswith i key = true ->
  Forall (fun l => startswith l key = false) l2 ->
  exists n, int (value_of i) = Some n /\ attrs !! name = Some (VInt n).
Proof.
  intros Hload Hkey Hsec Hi Hl2. destruct (load_config_inv _ _ _ Hload) as [_ Hattrs].
  unfold read_attributes in Hattrs. rewrite Hsec in Hattrs.
  destruct (fold_attrs_split (read_player_line int) l1 l2 i _ _ ltac:(reflexivity) Hattrs)
    as (a0 & a1 & _ & Hstep & Hrest).
  pose proof (player_line_int key name _ _ _ Hkey Hstep) as Hhit. rewrite Hi in Hhit.
  destruct Hhit as (n & Hn & Hname). exists n. split; [exact Hn |].
  rewrite <- Hname.
  eapply (fold_attrs_keeps (read_player_line int) (fun l => startswith l key = false));
    [reflexivity | | exact Hl2 | exact Hrest].
  intros x x' l Hl Hx. pose proof (player_line_int key name _ _ _ Hkey Hx) as Hmiss.
  rewrite Hl in Hmiss. exact Hmiss.
Qed.

(** X5: a line of the Player section that starts with one of the keys
    "x", "y", "mass", "health" or "max_velocity" and whose value [int]
    does not read makes the whole configuration invalid, wherever the line
    stands in the section. *)
Theorem load_config_rejects_bad_int (content : list string)
    (config : gmap string (list string)) (lines : list string)
    (key name i : string) :
  read_sections content None ∅ = Some config ->
  config !! "==Player==" = Some lines ->
  i ∈ lines ->
  (key, name) ∈ player_int_keys ->
  startswith i key = true ->
  int (value_of i) = None ->
  load_config int content = None.
Proof.
  intros Hread Hsec Hi Hkey Hstart Hint.
  unfold load_config. rewrite Hread. cbn [mbind option_bind].
  unfold read_attributes. rewrite Hsec.
  apply list_elem_of_split in Hi. destruct Hi as (l1 & l2 & ->).
  assert (Hdead : forall ls, fold_left (read_player_line int) ls None = None)
    by (induction ls; cbn [fold_left]; auto).
  rewrite fold_left_app. cbn [fold_left].
  destruct (fold_left (read_player_line int) l1 _) as [a0 |].
  - rewrite (player_line_bad_int key name a0 i Hkey Hstart Hint), Hdead. reflexivity.
  - cbn [read_player_line mbind option_bind]. rewrite Hdead. reflexivity.
Qed.

End LoadConfigFacts.

(** ** Level transitions *)

Section RestFacts.
Context {E : External}.

Lemma goto_line_frame (type : string) (a : MarioApp) (i : string) :
  let a' := goto_line type a i in
  _player a' = _player a /\ invincibility a' = invincibility a
  /\ _on_tunnel a' = _on_tunnel a
  /\ config a' = config a /\ current_level a' = current_level a
  /\ x_start a' = x_start a /\ y_start a' = y_start a /\ mass a' = mass a
  /\ switch_attr a' = switch_attr a /\ tempo_attr a' = tempo_attr a
  /\ next_ref a' = next_ref a
  /\ (_master a' = _master a \/ _master a' = destroy (_master a)).
Proof.
  unfold goto_line, reset_world, game_end.
  destruct (startswith i type); [| cbv zeta; tauto].
  destruct (String.eqb _ "END"); cbv zeta; cbn; tauto.
Qed.

Lemma fold_goto_frame (type : string) (lines : list string) :
  forall a,
    let a' := fold_left (goto_line type) lines a in
    _player a' = _player a /\ invincibility a' = invincibility a
    /\ _on_tunnel a' = _on_tunnel a
    /\ config a' = config a /\ current_level a' = current_level a
    /\ x_start a' = x_start a /\ y_start a' = y_start a /\ mass a' = mass a
    /\ switch_attr a' = switch_attr a /\ tempo_attr a' = tempo_attr a
    /\ next_ref a' = next_ref a
    /\ (_master a' = _master a \/ _master a' = destroy (_master a)).
Proof.
  induction lines as [| i lines IH]; intros a; cbn [fold_left]; [cbv zeta; tauto |].
  specialize (IH (goto_line type a i)). cbv zeta in IH.
  pose proof (goto_line_frame type a i) as Hi. cbv zeta in Hi.
  destruct IH as (H1 & H2 & H3 & H4 & H5 & H6 & H7 & H8 & H9 & H10 & H11 & H12).
  destruct Hi as (G1 & G2 & G3 & G4 & G5 & G6 & G7 & G8 & G9 & G10 & G11 & G12).
  cbv zeta. rewrite H1, H2, H3, H4, H5, H6, H7, H8, H9, H10, H11.
  repeat (split; [assumption |]).
  destruct H12 as [-> | ->], G12 as [-> | ->]; auto.
Qed.


(** X7: when the configuration has no section for the current level, the
    lookup fails: the contact with a flag, from any side, and the duck on
    a tunnel both end in the [KeyError]. *)
Theorem level_lookup_without_section (r : ref) (a : MarioApp) :
  config a !! ("==" +:+ current_level a +:+ "==") = None ->
  _handle_player_collide_block {| b_ref := r; b_class := Flag |} a = None
  /\ (_on_tunnel a = true -> _duck a = None).
Proof.
  intros Hsec. split.
  - unfold _handle_player_collide_block.
    change (block_get_id {| b_ref := r; b_class := Flag |}) with "flag".
    cbn [String.eqb Ascii.eqb Bool.eqb andb block_on_hit b_class].
    assert (Hgoto : forall p, goto_next_level "goal" (with_player p a) = None).
    { intros p. unfold goto_next_level, highscore. cbn [config current_level with_player].
      rewrite Hsec. reflexivity. }
    assert (Hgoto' : goto_next_level "goal" a = None).
    { unfold goto_next_level, highscore. rewrite Hsec. reflexivity. }
    destruct (String.eqb _ "B"); cbn [_world with_player];
      destruct (String.eqb _ "B"); rewrite ?Hgoto, ?Hgoto'; reflexivity.
  - intros Hon. unfold _duck. rewrite Hon.
    unfold goto_next_level, highscore. rewrite Hsec. reflexivity.
Qed.

Lemma fold_goto_no_match (type : string) (lines : list string) (a : MarioApp) :
  Forall (fun l => startswith l type = false) lines ->
  fold_left (goto_line type) lines a = a.
Proof.
  intros H. revert a. induction H as [| l lines Hl _ IH]; intros a; cbn [fold_left];
    [reflexivity |].
  assert (Hmiss : goto_line type a l = a) by (unfold goto_line; rewrite Hl; reflexivity).
  rewrite Hmiss. apply IH.
Qed.

(** X8: of the lines of the section of the current level, the last one
    that starts with the key decides: when its value is not "END", the
    world afterwards is the world loaded for that value with the player
    added at the start coordinates; when it is "END", the root is
    destroyed.  Without a line that starts with the key nothing changes. *)
Theorem goto_next_level_last_line (type : string) (a : MarioApp)
    (l1 l2 : list string) (i : string) :
  Forall (fun l => startswith l type = false) l2 ->
  (config a !! ("==" +:+ current_level a +:+ "==") = Some l2 ->
     goto_next_level type a = Some a)
  /\ (config a !! ("==" +:+ current_level a +:+ "==") = Some (l1 ++ i :: l2) ->
      startswith i type = true ->
      exists a',
        goto_next_level type a = Some a'
        /\ if String.eqb (strip " " (split_last ":" i)) "END"
           then destroyed (_master a') = true
           else _world a'
                = add_player (x_start a) (y_start a) (mass a)
                    (load_world (strip " " (split_last ":" i)))).
Proof.
  intros Hl2. split.
  - intros Hsec. unfold goto_next_level, highscore. rewrite Hsec.
    rewrite fold_goto_no_match by exact Hl2. reflexivity.
  - intros Hsec Hi. unfold goto_next_level, highscore. rewrite Hsec.
    eexists. split; [reflexivity |].
    rewrite fold_left_app. cbn [fold_left]. rewrite fold_goto_no_match by exact Hl2.
    pose proof (fold_goto_frame type l1 a) as Hf. cbv zeta in Hf.
    destruct Hf as (_ & _ & _ & _ & _ & Hx & Hy & Hm & _).
    assert (Hhit : forall b, goto_line type b i
                             = reset_world (strip " " (split_last ":" i)) b)
      by (intros b; unfold goto_line; rewrite Hi; reflexivity).
    rewrite Hhit. unfold reset_world, game_end.
    destruct (String.eqb _ "END"); [reflexivity |].
    cbn [_world with_world]. rewrite Hx, Hy, Hm. reflexivity.
Qed.

(** ** Tunnel, jump and the blocks without a branch of their own *)

(** X9: the tunnel works only while the player stands on it.  Landing on
    a tunnel sets the tunnel flag and a contact from another side leaves
    it; with the flag set, a duck makes the level transition for the key
    "tunnel" and clears the flag; leaving the tunnel clears the flag, and
    with the flag clear a duck does nothing. *)
Theorem tunnel_then_duck (r : ref) (a : MarioApp) :
  let blk := {| b_ref := r; b_class := Tunnel |} in
  let d := get_collision_direction (_world a) (ABlock blk) ThePlayer in
  exists a1,
    _handle_player_collide_block blk a = Some (a1, true)
    /\ _world a1 = _world a
    /\ _on_tunnel a1 = (if String.eqb d "B" then true else _on_tunnel a)
    /\ (forall s s', _on_tunnel s = true -> goto_next_level "tunnel" s = Some s' ->
          exists s2, _duck s = Some s2 /\ _on_tunnel s2 = false /\ _world s2 = _world s')
    /\ (forall s, _on_tunnel s = false -> _duck s = Some s)
    /\ (forall s, _on_tunnel (fst (_handle_player_separate_block blk s)) = false).
Proof.
  intros blk d. unfold _handle_player_collide_block.
  change (block_get_id blk) with "tunnel".
  cbn [String.eqb Ascii.eqb Bool.eqb andb block_on_hit b_class blk].
  fold d. destruct (String.eqb d "B") eqn:Hd; cbn [_world with_player]; fold d;
    rewrite ?Hd; (eexists; split; [reflexivity |]); (split; [reflexivity |]);
    (split; [reflexivity |]).
  all: split; [| split].
  all: try (intros s s' Hon Hgo; unfold _duck; rewrite Hon, Hgo; eexists;
            split; [reflexivity | split; reflexivity]).
  all: try (intros s Hoff; unfold _duck; rewrite Hoff; reflexivity).
  all: intros s; reflexivity.
Qed.

Lemma press_switch_player (blk : block) (a a' : MarioApp) (r : bool) :
  press_switch blk a = Some (a', r) -> _player a' = _player a.
Proof.
  unfold press_switch.
  destruct (get_position _ _) as [[x y] |]; [| discriminate].
  destruct (clear_bricks _ _ _) as [[w positions] |]; [| discriminate].
  intros Hret. cbv beta iota zeta delta [new_block] in Hret.
  injection Hret as <- _. reflexivity.
Qed.

Lemma begin_block_jumping (blk : block) (a a' : MarioApp) (r : bool) :
  (forall drop drop_range, b_class blk <> MysteryBlock_ drop drop_range) ->
  _handle_player_collide_block blk a = Some (a', r) ->
  is_jumping (_player a')
  = if String.eqb (get_collision_direction (_world a) (ABlock blk) ThePlayer) "B"
    then false else is_jumping (_player a).
Proof.
  intros Hclass. unfold _handle_player_collide_block. cbv beta zeta.
  assert (Hhit : forall s, block_on_hit blk s = s).
  { intros s. unfold block_on_hit. destruct (b_class blk) eqn:Hc; try reflexivity.
    exfalso. eapply Hclass. reflexivity. }
  rewrite !Hhit.
  set (d := get_collision_direction (_world a) (ABlock blk) ThePlayer).
  set (a0 := if String.eqb d "B" then with_player (set_jumping false (_player a)) a else a).
  set (a1 := if String.eqb (block_get_id blk) "bounce_block" then _jump a0 else a0).
  assert (H1 : is_jumping (_player a1)
               = if String.eqb d "B" then false else is_jumping (_player a)).
  { subst a1 a0. unfold _jump.
    destruct (String.eqb (block_get_id blk) "bounce_block"), (String.eqb d "B");
      try reflexivity; cbn [_player with_player];
      destruct (negb _); reflexivity. }
  destruct (String.eqb (block_get_id blk) "tunnel" && _).
  { intros [= <- _]. exact H1. }
  destruct (String.eqb (block_get_id blk) "flag").
  { destruct (String.eqb (get_collision_direction (_world a1) (ABlock blk) ThePlayer) "B");
      (destruct (goto_next_level "goal" a1) as [a2 |] eqn:Hgo; [| discriminate]);
      intros [= <- _]; cbn [_player with_player];
      rewrite (goto_next_level_player _ _ _ Hgo); exact H1. }
  destruct (String.eqb (block_get_id blk) "switch_pressed").
  { intros [= <- _]. exact H1. }
  destruct (String.eqb (block_get_id blk) "switch").
  { destruct (read_switch blk a1) as [[|] |]; cbn [negb]; [| | discriminate].
    - intros [= <- _]. exact H1.
    - destruct (String.eqb (get_collision_direction (_world a1) (ABlock blk) ThePlayer) "B").
      + intros Hpress. rewrite (press_switch_player _ _ _ _ Hpress). exact H1.
      + intros [= <- _]. exact H1. }
  intros [= <- _]. exact H1.
Qed.

(** X10: the jump is locked between leaving a block and landing on one.
    After the separation from any block [_jump] changes nothing; a begin
    collision changes the jumping flag only by a landing (the resolver
    answers "B"), which clears it, and after a landing [_jump] sets the
    vertical velocity to [- BLOCK_SIZE * JUMP_SIZE] and keeps the
    horizontal one. *)
Theorem jump_is_locked_in_the_air (blk : block) (a a' : MarioApp) (r : bool) :
  (forall drop drop_range, b_class blk <> MysteryBlock_ drop drop_range) ->
  _handle_player_collide_block blk a = Some (a', r) ->
  (forall b s, _jump (fst (_handle_player_separate_block b s))
               = fst (_handle_player_separate_block b s))
  /\ is_jumping (_player a')
     = (if String.eqb (get_collision_direction (_world a) (ABlock blk) ThePlayer) "B"
        then false else is_jumping (_player a))
  /\ (get_collision_direction (_world a) (ABlock blk) ThePlayer = "B" ->
      get_velocity (_player (_jump a'))
      = (fst (get_velocity (_player a')), - BLOCK_SIZE * JUMP_SIZE)).
Proof.
  intros Hclass Hret. pose proof (begin_block_jumping blk a a' r Hclass Hret) as Hj.
  split; [| split; [exact Hj |]].
  - intros b s. unfold _handle_player_separate_block, _jump.
    destruct (String.eqb (block_get_id b) "tunnel"); reflexivity.
  - intros Hd. rewrite Hd in Hj. cbn [String.eqb Ascii.eqb Bool.eqb] in Hj.
    unfold _jump. rewrite Hj. reflexivity.
Qed.

(** X11: a block whose identifier is none of "bounce_block", "tunnel",
    "flag", "switch_pressed" and "switch" (a brick, a base brick, a cube,
    and also an object of the class [BounceBlock], whose identifier is
    "bounce") is always accepted, and the collision changes nothing but
    the jumping flag that a landing clears: no impulse, no change of the
    world, of the queue or of the level. *)
Theorem plain_block_only_lands (blk : block) (a : MarioApp) :
  (forall drop drop_range, b_class blk <> MysteryBlock_ drop drop_range) ->
  block_get_id blk ∉ ["bounce_block"; "tunnel"; "flag"; "switch_pressed"; "switch"] ->
  _handle_player_collide_block blk a
  = Some (if String.eqb (get_collision_direction (_world a) (ABlock blk) ThePlayer) "B"
          then with_player (set_jumping false (_player a)) a else a, true).
Proof.
  intros Hclass Hid. unfold _handle_player_collide_block. cbv beta zeta.
  assert (Hhit : forall s, block_on_hit blk s = s).
  { intros s. unfold block_on_hit. destruct (b_class blk) eqn:Hc; try reflexivity.
    exfalso. eapply Hclass. reflexivity. }
  rewrite !Hhit.
  assert (Hne : forall s, s ∈ ["bounce_block"; "tunnel"; "flag"; "switch_pressed"; "switch"] ->
                          String.eqb (block_get_id blk) s = false).
  { intros s Hs. apply String.eqb_neq. intros Heq. apply Hid. rewrite Heq. exact Hs. }
  rewrite !Hne by (apply list_elem_of_In; simpl; tauto).
  reflexivity.
Qed.

(** ** Mobs and items *)

(** X12: a fireball that meets a block is removed and the collision is
    accepted; the block is removed with it exactly when its identifier is
    "brick".  Every other entity stays in the world, nothing comes in, and
    the player, the tempos and the queue are as before. *)
Theorem fireball_hits_block (m : mob) (blk : block) (a : MarioApp) :
  m_id m = "fireball" ->
  let r := _handle_mob_collide_block m blk a in
  snd r = true
  /\ (forall e, e ∈ w_things (_world (fst r)) <->
        e ∈ w_things (_world a)
        /\ same_object (fst e) (AMob m) = false
        /\ ~ (block_get_id blk = "brick" /\ same_object (fst e) (ABlock blk) = true))
  /\ _player (fst r) = _player a
  /\ tempo_attr (fst r) = tempo_attr a
  /\ _master (fst r) = _master a.
Proof.
  intros Hid r. subst r. unfold _handle_mob_collide_block. rewrite Hid.
  cbn [String.eqb Ascii.eqb Bool.eqb fst snd].
  destruct (String.eqb_spec (block_get_id blk) "brick") as [Hb | Hb];
    cbn [_world _player tempo_attr _master with_world remove_mob remove_block
         remove_thing w_things];
    (split; [reflexivity |]); (split; [| repeat split]); intros e.
  - rewrite !list_elem_of_filter.
    destruct (same_object (fst e) (ABlock blk)); intuition congruence.
  - rewrite list_elem_of_filter. intuition congruence.
Qed.

(** X13: a mushroom that meets a block stays in the world and the
    collision is accepted; its tempo changes sign when the resolver
    answers "R" or "L" and is left alone otherwise, the tempo of any other
    mob is untouched, and two side hits in a row give the mushroom its
    tempo back. *)
Theorem mushroom_turns_at_blocks (m : mob) (blk1 blk2 : block) (a : MarioApp) :
  m_id m = "mushroom" ->
  let side b :=
    let d := get_collision_direction (_world a) (ABlock b) (AMob m) in
    String.eqb d "R" || String.eqb d "L" in
  let a1 := fst (_handle_mob_collide_block m blk1 a) in
  let a2 := fst (_handle_mob_collide_block m blk2 a1) in
  snd (_handle_mob_collide_block m blk1 a) = true
  /\ _world a1 = _world a
  /\ get_tempo m a1 = (if side blk1 then - get_tempo m a else get_tempo m a)
  /\ (forall m', m_ref m' <> m_ref m -> get_tempo m' a1 = get_tempo m' a)
  /\ (side blk1 = true -> side blk2 = true -> get_tempo m a2 = get_tempo m a).
Proof.
  intros Hid side a1 a2.
  assert (Hstep : forall b s, _world s = _world a ->
            _handle_mob_collide_block m b s
            = (if side b then set_tempo m (- get_tempo m s) s else s, true)).
  { intros b s Hs. unfold _handle_mob_collide_block. rewrite Hid, Hs. reflexivity. }
  assert (Hset : forall s t, get_tempo m (set_tempo m t s) = t).
  { intros s t. unfold get_tempo, set_tempo. cbn [tempo_attr with_tempo_attr].
    rewrite lookup_insert_eq. reflexivity. }
  assert (Ha1 : a1 = if side blk1 then set_tempo m (- get_tempo m a) a else a)
    by (subst a1; rewrite Hstep by reflexivity; reflexivity).
  assert (Hw1 : _world a1 = _world a) by (rewrite Ha1; destruct (side blk1); reflexivity).
  split; [rewrite Hstep by reflexivity; reflexivity |].
  split; [exact Hw1 |].
  split; [rewrite Ha1; destruct (side blk1); [apply Hset | reflexivity] |].
  split.
  - intros m' Hm'. rewrite Ha1. destruct (side blk1); [| reflexivity].
    unfold get_tempo, set_tempo. cbn [tempo_attr with_tempo_attr].
    rewrite lookup_insert_ne by congruence. reflexivity.
  - intros H1 H2. subst a2. rewrite (Hstep blk2 a1 Hw1), H2. cbn [fst].
    rewrite Hset, Ha1, H1, Hset. lia.
Qed.

(** X14: two mobs never collide physically.  When one of them is a
    fireball both leave the world and every other entity stays; otherwise
    the world is as before.  Two mushrooms (two objects) both change the
    sign of their tempo; for any other pair the tempos are as before.  The
    player is never touched. *)
Theorem mob_meets_mob (mob1 mob2 : mob) (a : MarioApp) :
  let r := _handle_mob_collide_mob mob1 mob2 a in
  let fire := String.eqb (m_id mob1) "fireball" || String.eqb (m_id mob2) "fireball" in
  let turn := String.eqb (m_id mob1) "mushroom" && String.eqb (m_id mob2) "mushroom" in
  snd r = false
  /\ _player (fst r) = _player a
  /\ _master (fst r) = _master a
  /\ (forall e, e ∈ w_things (_world (fst r)) <->
        e ∈ w_things (_world a)
        /\ (fire = true -> same_object (fst e) (AMob mob1) = false
                           /\ same_object (fst e) (AMob mob2) = false))
  /\ (turn = false -> tempo_attr (fst r) = tempo_attr a)
  /\ (turn = true -> m_ref mob1 <> m_ref mob2 ->
        get_tempo mob1 (fst r) = - get_tempo mob1 a
        /\ get_tempo mob2 (fst r) = - get_tempo mob2 a).
Proof.
  intros r fire turn. subst r. unfold _handle_mob_collide_mob. fold fire turn.
  cbn [snd fst].
  destruct fire, turn;
    cbn [_player _master _world tempo_attr with_world with_tempo_attr set_tempo
         remove_mob remove_thing w_things];
    (split; [reflexivity |]); (split; [reflexivity |]); (split; [reflexivity |]);
    (split; [| split]); try discriminate; try reflexivity.
  all: try (intros e; rewrite ?list_elem_of_filter; intuition congruence).
  all: intros _ Hne; unfold get_tempo, set_tempo;
    cbn [tempo_attr with_tempo_attr with_world];
    rewrite ?lookup_insert_eq, ?(lookup_insert_ne _ (m_ref mob2) (m_ref mob1)),
      ?lookup_insert_eq, ?(lookup_insert_ne _ (m_ref mob1) (m_ref mob2)) by congruence;
    cbn [default from_option]; split; reflexivity.
Qed.

(** X15: an item that the player touches is collected and taken out of
    the world, every other entity stays, and the collision is never
    physical; unless the item is a star, the invincibility flag and the
    queue of callbacks are as before. *)
Theorem item_is_collected (it : item) (a : MarioApp) :
  let r := _handle_player_collide_item it a in
  snd r = false
  /\ _player (fst r) = collect it (_player a)
  /\ (forall e, e ∈ w_things (_world (fst r)) <->
        e ∈ w_things (_world a) /\ same_object (fst e) (AnItem it) = false)
  /\ (i_id it <> "star" ->
        invincibility (fst r) = invincibility a /\ _master (fst r) = _master a).
Proof.
  intros r. subst r. unfold _handle_player_collide_item, update_status_bar.
  cbn [fst snd]. split; [reflexivity |].
  split; [destruct (String.eqb _ "star"); reflexivity |].
  split.
  - intros e. cbn [_world with_world with_player remove_item remove_thing w_things].
    rewrite list_elem_of_filter.
    destruct (String.eqb _ "star"); cbn [_world]; tauto.
  - intros Hid. apply String.eqb_neq in Hid. rewrite Hid. split; reflexivity.
Qed.

(** ** Restart, death and the keys *)

Lemma refill_health (p : Player) (h : Z) :
  p_max_health p = h -> 0 <= p_health p -> 0 <= h ->
  p_health (change_health h p) = h.
Proof.
  intros Hmax Hp Hh. unfold change_health, clamp_health. cbn [p_health].
  rewrite Hmax.
  destruct (Z.ltb_spec (p_health p + h) 0); [lia |].
  destruct (Z.ltb_spec h (p_health p + h)); lia.
Qed.

Lemma menu_reset_level_effect (a : MarioApp) :
  p_max_health (_player a) = health a ->
  0 <= get_health (_player a) ->
  0 <= health a ->
  let a' := menu_reset_level a in
  get_score (_player a') = 0
  /\ get_health (_player a') = get_max_health (_player a')
  /\ invincibility a' = invincibility a
  /\ current_level a' = current_level a
  /\ (String.eqb (current_level a) "END" = false ->
        _master a' = _master a
        /\ _world a' = add_player (x_start a) (y_start a) (mass a)
                         (load_world (current_level a))).
Proof.
  intros Hmax Hp Hh a'.
  set (p1 := change_health (health a) (_player a)).
  set (p2 := change_score (- get_score p1) p1).
  assert (Ha' : a' = with_player p2 (with_player p1 (reset_world (current_level a) a))).
  { subst a' p2 p1. unfold menu_reset_level, update_status_bar. cbv zeta.
    cbn [current_level _player with_player health].
    rewrite !reset_world_with_player. reflexivity. }
  rewrite Ha'. cbn [_player with_player invincibility current_level _master _world].
  assert (Hh1 : p_health p1 = health a) by (apply refill_health; assumption).
  unfold get_score, get_health, get_max_health. subst p2.
  cbn [change_score p_score p_health p_max_health].
  split; [unfold get_score; lia |].
  split; [subst p1; cbn [change_health p_max_health] in *; congruence |].
  unfold reset_world, game_end.
  destruct (String.eqb (current_level a) "END");
    (split; [reflexivity |]); (split; [reflexivity |]).
  - discriminate.
  - intros _. split; reflexivity.
Qed.


(** X17: the hit that takes the last health point.  A player with one
    health point that is not invincible and meets the side of a mushroom
    goes through the death prompt: with the answer yes the level is
    loaded again, the health is back at the maximum and the score at 0;
    with any other answer the root is destroyed, the health stays 0 and
    the world is as it was.  The collision is accepted in both cases. *)
Theorem last_hit_restarts_or_quits (m : mob) (a : MarioApp) :
  invincibility a = false ->
  m_id m = "mushroom" ->
  (let d := get_collision_direction (_world a) (AMob m) ThePlayer in
   d = "R" \/ d = "L") ->
  get_health (_player a) = 1 ->
  p_max_health (_player a) = health a ->
  1 <= health a ->
  let a' := fst (_handle_player_collide_mob m a) in
  snd (_handle_player_collide_mob m a) = true
  /\ if askquestion_yes
     then get_health (_player a') = health a
          /\ get_score (_player a') = 0
          /\ (String.eqb (current_level a) "END" = false ->
                destroyed (_master a') = destroyed (_master a)
                /\ _world a' = add_player (x_start a) (y_start a) (mass a)
                                 (load_world (current_level a)))
     else destroyed (_master a') = true
          /\ get_health (_player a') = 0
          /\ _world a' = _world a.
Proof.
  intros Hinv Hid Hd Hone Hmax Hcfg a'. cbv zeta in Hd.
  split; [reflexivity |].
  assert (Hzero : forall v, p_health (set_velocity v (change_health (-1) (_player a))) = 0).
  { intros v. unfold get_health in Hone.
    cbn [set_velocity p_health change_health]. unfold clamp_health. rewrite Hone.
    change (1 + -1) with 0. rewrite Z.ltb_irrefl.
    destruct (Z.ltb_spec (p_max_health (_player a)) 0); [lia | reflexivity]. }
  assert (Ha' : exists v,
            a' = death (with_player (set_velocity v (change_health (-1) (_player a))) a)).
  { subst a'. unfold _handle_player_collide_mob. rewrite Hinv, Hid.
    cbn [String.eqb Ascii.eqb Bool.eqb fst update_status_bar].
    destruct Hd as [Hd | Hd]; rewrite Hd;
      cbn [String.eqb Ascii.eqb Bool.eqb _player with_player];
      unfold is_dead; rewrite Hzero; cbn [Z.leb Z.compare]; eexists; reflexivity. }
  destruct Ha' as [v ->]. unfold death.
  destruct askquestion_yes.
  - set (s := with_player (set_velocity v (change_health (-1) (_player a))) a).
    assert (Hs : p_max_health (_player s) = health s) by exact Hmax.
    assert (Hs0 : 0 <= get_health (_player s))
      by (unfold get_health; subst s; cbn [_player with_player]; rewrite Hzero; lia).
    destruct (menu_reset_level_effect s Hs Hs0 ltac:(subst s; cbn [health with_player]; lia))
      as (Hscore & Hhealth & _ & _ & Hworld).
    split; [| split; [exact Hscore |]].
    + rewrite Hhealth. unfold get_max_health, menu_reset_level, update_status_bar.
      rewrite reset_world_player. cbn [_player with_player change_score change_health
        p_max_health set_velocity]. exact Hmax.
    + intros Hend. destruct (Hworld Hend) as [Hm Hw]. rewrite Hm, Hw. split; reflexivity.
  - unfold menu_exit. cbn [_master _player _world with_master with_player destroy destroyed].
    unfold get_health. rewrite Hzero. repeat split.
Qed.

(** X18: [_move] looks at the direction only: the horizontal velocity
    becomes [min(dx, max_velocity) * BLOCK_SIZE * 5], the vertical one and
    the rest of the state stay, and the argument [dy] has no effect, so
    that the keys Right and d, and Left and a, do the same.  With a
    configured [max_velocity] of 1 or more the keys always give the speed
    80, whatever the configured value. *)
Theorem keys_move_at_fixed_speed (a : MarioApp) :
  (forall dx dy,
     _move dx dy a
     = with_player
         (set_velocity (Z.min dx (max_velocity a) * 80, snd (get_velocity (_player a)))
            (_player a)) a)
  /\ key_event "<Right>" a = key_event "<d>" a
  /\ key_event "<Left>" a = key_event "<a>" a
  /\ (1 <= max_velocity a ->
      (exists s, key_event "<Right>" a = Some s
                 /\ get_velocity (_player s) = (80, snd (get_velocity (_player a))))
      /\ (exists s, key_event "<Left>" a = Some s
                    /\ get_velocity (_player s) = (-80, snd (get_velocity (_player a))))).
Proof.
  assert (Hmove : forall dx dy,
            _move dx dy a
            = with_player
                (set_velocity (Z.min dx (max_velocity a) * 80,
                               snd (get_velocity (_player a))) (_player a)) a).
  { intros dx dy. unfold _move. f_equal. f_equal. f_equal.
    change BLOCK_SIZE with 16.
    destruct (Z.ltb_spec (max_velocity a) dx); lia. }
  split; [exact Hmove |].
  split; [reflexivity |]. split; [reflexivity |].
  intros Hmax. split; eexists; (split; [reflexivity |]); rewrite Hmove;
    cbn [_player with_player get_velocity set_velocity p_velocity]; f_equal; lia.
Qed.

(** ** A switch, pressed and reverted *)

Lemma new_bricks_positions (positions : list (Z * Z)) :
  forall n, snd <$> new_bricks n positions = positions.
Proof.
  induction positions as [| p rest IH]; intros n; cbn [new_bricks]; [reflexivity |].
  rewrite fmap_cons, IH. reflexivity.
Qed.

Lemma new_bricks_idents (positions : list (Z * Z)) :
  forall n,
    (forall e, e ∈ new_bricks n positions ->
       get_id (fst e) = Some "brick" /\ exists q, idof e = Some q /\ (n <= q)%nat)
    /\ NoDup (idof <$> new_bricks n positions).
Proof.
  induction positions as [| p rest IH]; intros n; cbn [new_bricks].
  - split; [intros e He; inversion He | constructor].
  - destruct (IH (S n)) as [Hge Hnd]. split.
    + intros e He. apply elem_of_cons in He. destruct He as [-> | He].
      * split; [reflexivity |]. exists n. split; [reflexivity | lia].
      * destruct (Hge e He) as (Hid & q & Hq & Hle). split; [exact Hid |].
        exists q. split; [exact Hq | lia].
    + rewrite fmap_cons. apply NoDup_cons. split; [| exact Hnd].
      intros Hin. apply list_elem_of_fmap in Hin. destruct Hin as (e & Heq & He).
      destruct (Hge e He) as (_ & q & Hq & Hle).
      unfold idof at 1 in Heq. cbn [fst ident b_ref] in Heq. rewrite Hq in Heq.
      injection Heq as ->. lia.
Qed.

Lemma filter_all {A} (P : A -> Prop) `{!forall x, Decision (P x)} (l : list A) :
  (forall x, x ∈ l -> P x) -> filter P l = l.
Proof.
  induction l as [| x l IH]; intros Hall; [reflexivity |].
  rewrite filter_cons_True by (apply Hall; left).
  f_equal. apply IH. intros z Hz. apply Hall. right. exact Hz.
Qed.

Lemma unpress_switch_attr (blk : block) (x y : Z) (pressed_switch : block)
    (positions : list (Z * Z)) (a : MarioApp) :
  switch_attr (unpress_switch blk x y pressed_switch positions a)
  = <[b_ref blk := false]> (switch_attr a).
Proof.
  unfold unpress_switch. cbn [switch_attr with_world].
  destruct (restore_bricks_frame positions (write_switch blk false a))
    as (_ & _ & _ & Hsw).
  rewrite Hsw. reflexivity.
Qed.

(** X19: a press and its revert, in the same world.  The player lands on
    an unpressed switch while no callback is pending; when the time of
    the switch has passed, the world holds what the press left, then a
    new brick at the position of every entity that the press took out, in
    the same order, then the switch at its old coordinates.  The
    placeholder is gone, the switch can be pressed again, the queue is
    empty, and the world still holds each object once. *)
Theorem press_then_revert_restores (r : ref) (a : MarioApp) (x y : Z) :
  let blk := {| b_ref := r; b_class := Switch |} in
  wf_world (_world a) ->
  (ABlock blk, (x, y)) ∈ w_things (_world a) ->
  read_switch blk a = Some false ->
  get_collision_direction (_world a) (ABlock blk) ThePlayer = "B" ->
  (forall e q, e ∈ w_things (_world a) -> idof e = Some q -> (q < next_ref a)%nat) ->
  pending (_master a) = [] ->
  destroyed (_master a) = false ->
  let positions := snd <$> filter (cleared x y) (w_things (_world a)) in
  exists a1,
    _handle_player_collide_block blk a = Some (a1, true)
    /\ let a2 := tick (TIMING switch_key) a1 in
       w_things (_world a2)
       = filter (fun e => ~ cleared x y e /\ same_object (fst e) (ABlock blk) = false)
           (w_things (_world a))
         ++ new_bricks (S (next_ref a)) positions
         ++ [(ABlock blk, (x, y))]
       /\ snd <$> new_bricks (S (next_ref a)) positions = positions
       /\ read_switch blk a2 = Some false
       /\ pending (_master a2) = []
       /\ wf_world (_world a2).
Proof.
  intros blk Hwf Hin Hsw Hd Hfresh Hpending Hrun positions.
  pose proof (unpressed_switch_landing r a Hsw Hd) as Hland.
  cbv zeta in Hland. fold blk in Hland. rewrite Hland.
  destruct (press_switch_spec blk (with_player (set_jumping false (_player a)) a) x y
              Hwf Hin) as (a1 & Hpress & Hw & Hm & Hattr & _ & _ & _ & Hnext).
  cbn [_world _master switch_attr next_ref with_player] in Hw, Hm, Hattr, Hnext.
  fold positions in Hm.
  set (pressed := {| b_ref := next_ref a; b_class := Switch_Pressed |}) in *.
  set (kept := filter (fun e => ~ cleared x y e /\ same_object (fst e) (ABlock blk) = false)
                 (w_things (_world a))) in *.
  exists a1. split; [exact Hpress |]. cbv zeta.
  assert (Htick : tick (TIMING switch_key) a1
                  = unpress_switch blk x y pressed positions
                      (with_master {| destroyed := false;
                                      clock := clock (_master a) + TIMING switch_key;
                                      pending := [] |} a1)).
  { unfold tick. rewrite Hm. cbn [destroyed clock pending after]. rewrite Hrun, Hpending.
    cbn [enqueue List.filter fst]. rewrite Z.leb_refl, Z.ltb_irrefl. reflexivity. }
  rewrite Htick.
  assert (Hkept : forall e, e ∈ kept ->
            e ∈ w_things (_world a) /\ idof e <> Some r /\ idof e <> Some (next_ref a)).
  { intros e He. apply list_elem_of_filter in He. destruct He as [[_ Hne] He].
    split; [exact He |]. split.
    - apply same_object_false in Hne. exact Hne.
    - intros Hq. specialize (Hfresh e _ He Hq). lia. }
  destruct (new_bricks_idents positions (S (next_ref a))) as [Hbricks Hbricks_nd].
  assert (Hworld : w_things (_world (unpress_switch blk x y pressed positions
                      (with_master {| destroyed := false;
                                      clock := clock (_master a) + TIMING switch_key;
                                      pending := [] |} a1)))
                   = kept ++ new_bricks (S (next_ref a)) positions ++ [(ABlock blk, (x, y))]).
  { rewrite unpress_switch_world. cbn [_world next_ref with_master]. rewrite Hw, Hnext.
    rewrite !filter_app.
    rewrite (filter_all _ kept), (filter_all _ (new_bricks _ _)).
    - rewrite filter_cons_False by (rewrite same_object_refl; discriminate).
      rewrite filter_nil, app_nil_r, <- app_assoc. reflexivity.
    - intros e He. apply same_object_false.
      destruct (Hbricks e He) as (_ & q & Hq & Hle). unfold idof in Hq. rewrite Hq.
      cbn [ident pressed b_ref]. intros [= ->]. lia.
    - intros e He. apply same_object_false.
      destruct (Hkept e He) as (_ & _ & Hne). exact Hne. }
  split; [exact Hworld |].
  split; [apply new_bricks_positions |].
  split; [| split].
  - unfold read_switch. cbn [b_class blk b_ref]. rewrite unpress_switch_attr.
    cbn [b_ref]. rewrite lookup_insert_eq. reflexivity.
  - destruct (unpress_switch_frame blk x y pressed positions
                (with_master {| destroyed := false;
                                clock := clock (_master a) + TIMING switch_key;
                                pending := [] |} a1)) as (Hmaster & _).
    rewrite Hmaster. reflexivity.
  - unfold wf_world. rewrite Hworld, !fmap_app.
    assert (Hr : (r < next_ref a)%nat) by (apply (Hfresh _ r Hin); reflexivity).
    apply NoDup_app. split; [| split].
    + eapply sublist_NoDup; [exact Hwf |]. apply fmap_sublist, sublist_filter.
    + intros i Hi Hi'. apply list_elem_of_fmap in Hi. destruct Hi as (e & -> & He).
      destruct (Hkept e He) as (Hew & Hner & _).
      apply elem_of_app in Hi'. destruct Hi' as [Hi' | Hi'].
      * apply list_elem_of_fmap in Hi'. destruct Hi' as (b & Heq & Hb).
        destruct (Hbricks b Hb) as (_ & q & Hq & Hle). rewrite Hq in Heq.
        specialize (Hfresh e q Hew Heq). lia.
      * apply list_elem_of_singleton in Hi'. exact (Hner Hi').
    + apply NoDup_app. split; [exact Hbricks_nd |]. split; [| apply NoDup_singleton].
      intros i Hi Hi'. apply list_elem_of_fmap in Hi. destruct Hi as (b & -> & Hb).
      destruct (Hbricks b Hb) as (_ & q & Hq & Hle).
      apply list_elem_of_singleton in Hi'. rewrite Hq in Hi'.
      unfold idof in Hi'. cbn [fst ident blk b_ref] in Hi'. injection Hi' as ->. lia.
Qed.

End RestFacts.

(** ** When the begin handler of the player and a block fails *)

Section FailureFacts.
Context {E : External}.

(** X20: in a world that holds each object once, the begin handler for
    the player and a block of the world that is neither a flag nor a
    mystery block fails in one case only: the block is a plain [Block]
    constructed with the identifier "switch", which has no [_switch]
    attribute to read.  On every other such block, on whatever side the
    contact is, the handler returns its verdict. *)
Theorem begin_block_failure_off_flags (blk : block) (p : Z * Z) (a : MarioApp) :
  (forall drop drop_range, b_class blk <> MysteryBlock_ drop drop_range) ->
  block_get_id blk <> "flag" ->
  wf_world (_world a) ->
  (ABlock blk, p) ∈ w_things (_world a) ->
  _handle_player_collide_block blk a = None <-> b_class blk = Block_ "switch".
Proof.
  intros Hclass Hflag Hwf Hin.
  unfold _handle_player_collide_block. cbv beta zeta.
  assert (Hhit : forall s, block_on_hit blk s = s).
  { intros s. unfold block_on_hit. destruct (b_class blk) eqn:Hc; try reflexivity.
    exfalso. eapply Hclass. reflexivity. }
  rewrite !Hhit.
  set (d := get_collision_direction (_world a) (ABlock blk) ThePlayer).
  set (a0 := if String.eqb d "B" then with_player (set_jumping false (_player a)) a else a).
  set (a1 := if String.eqb (block_get_id blk) "bounce_block" then _jump a0 else a0).
  assert (Hw1 : _world a1 = _world a).
  { subst a1 a0. unfold _jump.
    destruct (String.eqb (block_get_id blk) "bounce_block"), (String.eqb d "B");
      cbn [_player with_player]; try destruct (negb _); reflexivity. }
  rewrite Hw1. fold d.
  apply String.eqb_neq in Hflag. rewrite Hflag.
  split.
  - destruct (String.eqb (block_get_id blk) "tunnel" && String.eqb d "B");
      [discriminate |].
    destruct (String.eqb (block_get_id blk) "switch_pressed"); [discriminate |].
    destruct (String.eqb_spec (block_get_id blk) "switch") as [Hsw | Hsw];
      [| discriminate].
    unfold read_switch, block_get_id in *.
    destruct (b_class blk) eqn:Hc; try discriminate.
    + intros _. rewrite Hsw. reflexivity.
    + exfalso. eapply Hclass. reflexivity.
    + destruct (default false (switch_attr a1 !! b_ref blk)); cbn [negb]; [discriminate |].
      destruct (String.eqb d "B"); [| discriminate].
      destruct p as [x y].
      destruct (press_switch_spec blk a1 x y) as (a' & Hpress & _);
        [rewrite Hw1; exact Hwf | rewrite Hw1; exact Hin |].
      rewrite Hpress. discriminate.
  - intros Hc. unfold read_switch, block_get_id. rewrite Hc.
    cbn [String.eqb Ascii.eqb Bool.eqb andb]. reflexivity.
Qed.

End FailureFacts.

(** ** The builders *)

Section BuilderFacts.
Context {L : Library} {E : External}.

Lemma table_get_keys (table : list (ascii * string)) (key v : string) :
  table_get table key = Some v ->
  exists c, key = String c EmptyString /\ In (c, v) table.
Proof.
  unfold table_get. destruct key as [| c [| ? ?]]; try discriminate.
  intros Hget. exists c. split; [reflexivity |].
  induction table as [| [k w] rest IH]; cbn [lookup_char] in Hget; [discriminate |].
  destruct (Ascii.eqb_spec k c) as [-> | Hne].
  - injection Hget as ->. left. reflexivity.
  - right. apply IH. exact Hget.
Qed.

(** X21: [create_block] accepts exactly the nine characters of [BLOCKS]
    and fails with the [KeyError] on every other string.  When it
    succeeds it adds one new block, behind the entities of the world, at
    [BLOCK_SIZE] times the given coordinates; the identifier of the block
    is the one the table gives for the character (the two mystery
    characters apart), and no block of the class [BounceBlock] is ever
    built. *)
Theorem create_block_builds (key : string) (x y : Z) (w : World) (n : ref) :
  (is_Some (create_block key x y (w, n))
   <-> key ∈ ["#"; "%"; "?"; "$"; "^"; "b"; "I"; "="; "S"])
  /\ (forall w' n', create_block key x y (w, n) = Some (w', n') ->
        n' = S n
        /\ exists c,
             w_things w' = w_things w
                           ++ [(ABlock {| b_ref := n; b_class := c |}, (x * 16, y * 16))]
             /\ c <> BounceBlock
             /\ (key <> "?" -> key <> "$" ->
                   table_get BLOCKS key
                   = Some (block_get_id {| b_ref := n; b_class := c |}))).
Proof.
  assert (Hkeys : forall v, table_get BLOCKS key = Some v ->
            key ∈ ["#"; "%"; "?"; "$"; "^"; "b"; "I"; "="; "S"]).
  { intros v Hget. destruct (table_get_keys _ _ _ Hget) as (c & -> & Hc).
    apply list_elem_of_In. cbn [BLOCKS In] in Hc. cbn [In].
    repeat (destruct Hc as [[= <- _] | Hc]; [tauto |]). contradiction. }
  split.
  - split.
    + intros [st Hst]. unfold create_block in Hst.
      destruct (table_get BLOCKS key) as [v |] eqn:Hget; [| discriminate].
      eapply Hkeys. reflexivity.
    + intros Hkey. apply list_elem_of_In in Hkey. cbn [In] in Hkey.
      repeat (destruct Hkey as [<- | Hkey]; [eexists; reflexivity |]). contradiction.
  - intros w' n' Hcreate.
    assert (Hkey : key ∈ ["#"; "%"; "?"; "$"; "^"; "b"; "I"; "="; "S"]).
    { unfold create_block in Hcreate.
      destruct (table_get BLOCKS key) as [v |] eqn:Hget; [| discriminate].
      eapply Hkeys. reflexivity. }
    apply list_elem_of_In in Hkey. cbn [In] in Hkey.
    repeat (destruct Hkey as [<- | Hkey];
            [injection Hcreate as <- <-; split; [reflexivity |]; eexists;
             split; [reflexivity |]; split; [discriminate |];
             intros H1 H2; first [reflexivity | congruence] |]).
    contradiction.
Qed.

(** X22: [create_mob] accepts exactly "&" and "@" and builds a cloud mob
    or a mushroom (tempo 15); [create_item] accepts exactly "C" and "*"
    and builds a coin or a star (value 10).  The branches for a fireball,
    for a mob of another name and for another dropped item are never
    taken; every other key is a [KeyError].  The new entity goes behind
    the entities of the world, at [BLOCK_SIZE] times the coordinates. *)
Theorem builders_know_two_mobs_and_two_items (key : string) (x y : Z) (w : World)
    (n : ref) :
  create_mob key x y (w, n)
  = (if String.eqb key "&"
     then Some (add_thing (AMob (CloudMob_new n)) (x * 16) (y * 16) w, S n)
     else if String.eqb key "@"
     then Some (add_thing (AMob (Mushroom_new n)) (x * 16) (y * 16) w, S n)
     else None)
  /\ create_item key x y (w, n)
     = (if String.eqb key "C"
        then Some (add_thing (AnItem (Coin_new n)) (x * 16) (y * 16) w, S n)
        else if String.eqb key "*"
        then Some (add_thing (AnItem (Star_new n)) (x * 16) (y * 16) w, S n)
        else None).
Proof.
  split.
  - destruct (String.eqb_spec key "&") as [-> | H1]; [reflexivity |].
    destruct (String.eqb_spec key "@") as [-> | H2]; [reflexivity |].
    unfold create_mob.
    destruct (table_get MOBS key) as [v |] eqn:Hget; [| reflexivity].
    destruct (table_get_keys _ _ _ Hget) as (c & -> & Hc). cbn [MOBS In] in Hc.
    repeat (destruct Hc as [[= <- _] | Hc]; [congruence |]). contradiction.
  - destruct (String.eqb_spec key "C") as [-> | H1]; [reflexivity |].
    destruct (String.eqb_spec key "*") as [-> | H2]; [reflexivity |].
    unfold create_item.
    destruct (table_get ITEMS key) as [v |] eqn:Hget; [| reflexivity].
    destruct (table_get_keys _ _ _ Hget) as (c & -> & Hc). cbn [ITEMS In] in Hc.
    repeat (destruct Hc as [[= <- _] | Hc]; [congruence |]). contradiction.
Qed.

End BuilderFacts.

(** ** The value of a configuration line *)

Lemma split_last_suffix (sep : ascii) (s : string) :
  ~ In sep (list_ascii_of_string (split_last sep s))
  /\ exists pre,
       list_ascii_of_string s = pre ++ list_ascii_of_string (split_last sep s).
Proof.
  induction s as [| c rest [IHno [pre IHpre]]]; cbn [split_last].
  - split; [intros [] | exists []; reflexivity].
  - destruct (existsb (Ascii.eqb sep) (list_ascii_of_string rest)) eqn:Hin.
    + split; [exact IHno |]. exists (c :: pre). cbn [list_ascii_of_string app].
      rewrite <- IHpre. reflexivity.
    + assert (Hrest : ~ In sep (list_ascii_of_string rest)).
      { intros Hsep. apply not_true_iff_false in Hin. apply Hin.
        apply existsb_exists. exists sep. split; [exact Hsep | apply Ascii.eqb_refl]. }
      destruct (Ascii.eqb_spec c sep) as [-> | Hne].
      * split; [exact Hrest |]. exists [sep]. reflexivity.
      * split; [| exists []; reflexivity].
        cbn [list_ascii_of_string In]. intros [Heq | Hsep]; [congruence | tauto].
Qed.

Lemma lstrip_spec (c : ascii) (s : string) :
  (forall rest, list_ascii_of_string (lstrip c s) <> c :: rest)
  /\ exists k, list_ascii_of_string s = repeat c k ++ list_ascii_of_string (lstrip c s).
Proof.
  induction s as [| d rest [IHhead [k IHk]]]; cbn [lstrip].
  - split; [discriminate | exists 0%nat; reflexivity].
  - destruct (Ascii.eqb_spec d c) as [-> | Hne].
    + split; [exact IHhead |]. exists (S k). cbn [list_ascii_of_string repeat app].
      rewrite <- IHk. reflexivity.
    + split; [| exists 0%nat; reflexivity].
      cbn [list_ascii_of_string]. intros tl [= Heq _]. contradiction.
Qed.

Lemma rev_repeat_same {A} (c : A) (k : nat) : rev (repeat c k) = repeat c k.
Proof.
  induction k as [| k IH]; [reflexivity |].
  cbn [repeat rev]. rewrite IH. symmetry. apply repeat_cons.
Qed.

Lemma strip_spec (c : ascii) (s : string) :
  let v := list_ascii_of_string (strip c s) in
  (forall rest, v <> c :: rest)
  /\ (forall pre, v <> pre ++ [c])
  /\ exists k1 k2, list_ascii_of_string s = repeat c k1 ++ v ++ repeat c k2.
Proof.
  intros v. subst v. unfold strip, string_rev.
  rewrite !list_ascii_of_string_of_list_ascii.
  destruct (lstrip_spec c s) as [Hhead [k1 Hk1]].
  set (t := list_ascii_of_string (lstrip c s)) in *.
  destruct (lstrip_spec c (string_of_list_ascii (rev t))) as [Hhead2 [k2 Hk2]].
  rewrite list_ascii_of_string_of_list_ascii in Hk2.
  set (u := list_ascii_of_string (lstrip c (string_of_list_ascii (rev t)))) in *.
  assert (Ht : t = rev u ++ repeat c k2).
  { rewrite <- (rev_involutive t), Hk2, rev_app_distr, rev_repeat_same. reflexivity. }
  split; [| split].
  - intros rest Hv. destruct (rev u) as [| x tl] eqn:Hu; [discriminate |].
    injection Hv as -> ->. apply (Hhead (rest ++ repeat c k2)). rewrite Ht. reflexivity.
  - intros pre Hv. apply (Hhead2 (rev pre)).
    rewrite <- (rev_involutive u), Hv, rev_app_distr. reflexivity.
  - exists k1, k2. rewrite Hk1, Ht. reflexivity.
Qed.

(** X23: the value that [goto_next_level] and [load_config] read from a
    line, [line.split(":")[-1].strip(" ")], is a part of the line that
    holds no colon and has no space at either end: what comes before it
    ends the line's last colon or is spaces, and only spaces follow it.
    A level whose name or path holds a colon can therefore not be named
    in the configuration. *)
Theorem value_of_line_has_no_colon (line : string) :
  let v := list_ascii_of_string (strip " " (split_last ":" line)) in
  ~ In ":"%char v
  /\ (forall rest, v <> " "%char :: rest)
  /\ (forall pre, v <> pre ++ [" "%char])
  /\ exists pre k, list_ascii_of_string line = pre ++ v ++ repeat " "%char k.
Proof.
  intros v. subst v.
  destruct (split_last_suffix ":" line) as [Hno [pre Hpre]].
  destruct (strip_spec " " (split_last ":" line)) as (Hhead & Hlast & k1 & k2 & Hk).
  cbv zeta in Hhead, Hlast, Hk.
  split; [| split; [exact Hhead | split; [exact Hlast |]]].
  - intros Hin. apply Hno. rewrite Hk. apply in_or_app. right.
    apply in_or_app. left. exact Hin.
  - exists (pre ++ repeat " "%char k1), k2. rewrite Hpre, Hk, <- app_assoc. reflexivity.
Qed.

(** ** The further theorems on the concrete configuration and level *)

Example demo_configuration_loads :
  (fun r => (snd r !! "current_level", snd r !! "health",
             fst r !! "==level2.txt=="))
    <$> load_config DemoRest.int DemoRest.config_file
  = Some (Some (VStr "level1.txt"), Some (VInt 5), Some ["goal : END"]).
Proof. vm_compute. reflexivity. Qed.

Lemma load_config_section_witness :
  exists config attrs,
    load_config DemoRest.int DemoRest.config_file = Some (config, attrs)
    /\ config !! "==level1.txt==" = Some ["tunnel : bonus.txt"; "goal : level2.txt"].
Proof.
  destruct (load_config DemoRest.int DemoRest.config_file) as [[config attrs] |] eqn:Hload;
    [| vm_compute in Hload; discriminate].
  exists config, attrs. split; [reflexivity |].
  apply (load_config_section DemoRest.int DemoRest.file_head DemoRest.file_level1
           DemoRest.file_tail ("==level1.txt==" +:+ DemoRest.newline) config attrs Hload).
  - reflexivity.
  - repeat constructor.
  - reflexivity.
  - intros l Hl _. apply list_elem_of_In in Hl. cbn in Hl.
    destruct Hl as [<- | [<- | []]]; vm_compute; discriminate.
Defined.


Lemma load_config_player_int_witness :
  exists config attrs,
    load_config DemoRest.int DemoRest.config_file = Some (config, attrs)
    /\ attrs !! "health" = Some (VInt 5).
Proof.
  destruct (load_config DemoRest.int DemoRest.config_file) as [[config attrs] |] eqn:Hload;
    [| vm_compute in Hload; discriminate].
  exists config, attrs. split; [reflexivity |].
  assert (Hc : (fun r => fst r !! "==Player==")
                 <$> load_config DemoRest.int DemoRest.config_file
               = Some (Some (["character : luigi"; "x : 30"; "y : 30"; "mass : 100"]
                             ++ "health : 5" :: ["max_velocity : 100"])))
    by (vm_compute; reflexivity).
  rewrite Hload in Hc. injection Hc as Hc.
  destruct (load_config_player_int DemoRest.int _ _ _ "health" "health"
              ["character : luigi"; "x : 30"; "y : 30"; "mass : 100"]
              ["max_velocity : 100"] "health : 5" Hload
              ltac:(apply list_elem_of_In; simpl; tauto) Hc eq_refl
              ltac:(repeat constructor)) as (n & Hn & Hattr).
  vm_compute in Hn. injection Hn as <-. exact Hattr.
Defined.

Lemma load_config_rejects_bad_int_witness :
  DemoRest.int (value_of "health : five") = None
  /\ load_config DemoRest.int DemoRest.bad_file = None.
Proof.
  split; [reflexivity |].
  destruct (read_sections DemoRest.bad_file None ∅) as [config |] eqn:Hread;
    [| vm_compute in Hread; discriminate].
  assert (Hc : (fun c => c !! "==Player==") <$> read_sections DemoRest.bad_file None ∅
               = Some (Some ["mass : 100"; "health : five"]))
    by (vm_compute; reflexivity).
  rewrite Hread in Hc. injection Hc as Hc.
  apply (load_config_rejects_bad_int DemoRest.int DemoRest.bad_file config
           ["mass : 100"; "health : five"] "health" "health" "health : five" Hread Hc).
  - apply list_elem_of_In. simpl. tauto.
  - apply list_elem_of_In. simpl. tauto.
  - reflexivity.
  - reflexivity.
Defined.


Lemma level_lookup_without_section_witness :
  config DemoRest.lost_app !! ("==" +:+ current_level DemoRest.lost_app +:+ "==") = None
  /\ _handle_player_collide_block (E := Demo.env "L" true) Demo.the_flag
       DemoRest.lost_app = None
  /\ _duck (E := Demo.env "L" true) DemoRest.lost_app = None.
Proof.
  assert (Hnone : config DemoRest.lost_app
                    !! ("==" +:+ current_level DemoRest.lost_app +:+ "==") = None)
    by reflexivity.
  split; [exact Hnone |].
  destruct (level_lookup_without_section (E := Demo.env "L" true) 5%nat
              DemoRest.lost_app Hnone) as [Hflag Hduck].
  split; [exact Hflag | apply Hduck; reflexivity].
Defined.

Lemma goto_next_level_last_line_witness :
  Forall (fun l => startswith l "goal" = false) []
  /\ exists a',
       goto_next_level (E := Demo.env "B" true) "goal" (Demo.app 3 true) = Some a'
       /\ _world a' = {| w_things := [(ThePlayer, (0, 0))] |}.
Proof.
  split; [constructor |].
  destruct (goto_next_level_last_line (E := Demo.env "B" true) "goal" (Demo.app 3 true)
              ["tunnel : bonus.txt"] [] "goal : level2.txt" ltac:(constructor))
    as [_ Hlast].
  destruct (Hlast eq_refl eq_refl) as (a' & Hgo & Hw).
  exists a'. split; [exact Hgo | exact Hw].
Defined.

Lemma jump_is_locked_in_the_air_witness :
  exists a',
    _handle_player_collide_block (E := Demo.env "B" true) Demo.brick_near
      (Demo.app 3 true) = Some (a', true)
    /\ is_jumping (_player (Demo.app 3 true)) = true
    /\ is_jumping (_player a') = false
    /\ get_velocity (_player (_jump a')) = (0, -160).
Proof.
  destruct (_handle_player_collide_block (E := Demo.env "B" true) Demo.brick_near
              (Demo.app 3 true)) as [[a' v] |] eqn:Hret;
    [| vm_compute in Hret; discriminate].
  assert (Hv : v = true).
  { assert (Hs : snd <$> _handle_player_collide_block (E := Demo.env "B" true)
                           Demo.brick_near (Demo.app 3 true) = Some true)
      by (vm_compute; reflexivity).
    rewrite Hret in Hs. injection Hs as Hs. exact Hs. }
  subst v. exists a'. split; [reflexivity |]. split; [reflexivity |].
  destruct (jump_is_locked_in_the_air (E := Demo.env "B" true) Demo.brick_near
              (Demo.app 3 true) a' true ltac:(discriminate) Hret) as (_ & Hj & Hjump).
  split; [exact Hj |].
  rewrite (Hjump eq_refl).
  assert (Hp : (fun r => fst (get_velocity (_player (fst r))))
                 <$> _handle_player_collide_block (E := Demo.env "B" true)
                       Demo.brick_near (Demo.app 3 true) = Some 0)
    by (vm_compute; reflexivity).
  rewrite Hret in Hp. injection Hp as Hp. cbn [fst] in Hp. rewrite Hp. reflexivity.
Defined.

Lemma plain_block_only_lands_witness :
  block_get_id (E := Demo.env "L" true) DemoRest.bounce_object = "bounce"
  /\ _handle_player_collide_block (E := Demo.env "L" true) DemoRest.bounce_object
       (Demo.app 3 false)
     = Some (Demo.app 3 false, true).
Proof.
  split; [reflexivity |].
  apply (plain_block_only_lands (E := Demo.env "L" true) DemoRest.bounce_object
           (Demo.app 3 false)).
  - discriminate.
  - intros Hin. apply list_elem_of_In in Hin. vm_compute in Hin.
    repeat (destruct Hin as [Hin | Hin]; [discriminate Hin |]). exact Hin.
Defined.

Lemma fireball_hits_block_witness :
  m_id DemoRest.fireball = "fireball"
  /\ ~ (ABlock Demo.brick_near, (32, 16))
       ∈ w_things (_world (fst (_handle_mob_collide_block (E := Demo.env "L" true)
                                  DemoRest.fireball Demo.brick_near (Demo.app 3 false)))).
Proof.
  split; [reflexivity |].
  destruct (fireball_hits_block (E := Demo.env "L" true) DemoRest.fireball
              Demo.brick_near (Demo.app 3 false) eq_refl) as (_ & Hworld & _).
  intros Hin. apply Hworld in Hin. destruct Hin as (_ & _ & Hno).
  apply Hno. split; reflexivity.
Defined.

Lemma mushroom_turns_at_blocks_witness :
  m_id Demo.goomba = "mushroom"
  /\ get_tempo Demo.goomba
       (fst (_handle_mob_collide_block (E := Demo.env "L" true) Demo.goomba
               Demo.brick_near (Demo.app 3 false))) = -15
  /\ get_tempo Demo.goomba
       (fst (_handle_mob_collide_block (E := Demo.env "L" true) Demo.goomba
               Demo.base_near
               (fst (_handle_mob_collide_block (E := Demo.env "L" true) Demo.goomba
                       Demo.brick_near (Demo.app 3 false))))) = 15.
Proof.
  split; [reflexivity |].
  destruct (mushroom_turns_at_blocks (E := Demo.env "L" true) Demo.goomba
              Demo.brick_near Demo.base_near (Demo.app 3 false) eq_refl)
    as (_ & _ & Hone & _ & Htwo).
  split; [rewrite Hone; reflexivity | rewrite (Htwo eq_refl eq_refl); reflexivity].
Defined.


Lemma last_hit_restarts_or_quits_witness :
  get_health (_player (Demo.app 1 false)) = 1
  /\ get_health (_player (fst (_handle_player_collide_mob (E := Demo.env "R" true)
                                 Demo.goomba (Demo.app 1 false)))) = 5
  /\ destroyed (_master (fst (_handle_player_collide_mob (E := Demo.env "R" false)
                                Demo.goomba (Demo.app 1 false)))) = true.
Proof.
  split; [reflexivity |].
  destruct (last_hit_restarts_or_quits (E := Demo.env "R" true) Demo.goomba
              (Demo.app 1 false) eq_refl eq_refl (or_introl eq_refl) eq_refl eq_refl
              ltac:(simpl; lia)) as (_ & Hyes).
  destruct (last_hit_restarts_or_quits (E := Demo.env "R" false) Demo.goomba
              (Demo.app 1 false) eq_refl eq_refl (or_introl eq_refl) eq_refl eq_refl
              ltac:(simpl; lia)) as (_ & Hno).
  cbn [askquestion_yes Demo.env] in Hyes, Hno.
  split; [exact (proj1 Hyes) | exact (proj1 Hno)].
Defined.

Lemma press_then_revert_restores_witness :
  exists a1,
    _handle_player_collide_block (E := Demo.env "B" true) Demo.the_switch
      (Demo.app 3 true) = Some (a1, true)
    /\ wf_world (_world (tick (TIMING switch_key) a1))
    /\ read_switch Demo.the_switch (tick (TIMING switch_key) a1) = Some false.
Proof.
  assert (Hwf : wf_world (_world (Demo.app 3 true)))
    by (unfold wf_world; apply (bool_decide_unpack _); vm_compute; exact I).
  assert (Hin : (ABlock Demo.the_switch, (0, 16)) ∈ w_things (_world (Demo.app 3 true)))
    by (apply list_elem_of_In; simpl; tauto).
  assert (Hfresh : forall e q, e ∈ w_things (_world (Demo.app 3 true)) ->
                     idof e = Some q -> (q < next_ref (Demo.app 3 true))%nat).
  { intros e q He Hq. apply list_elem_of_In in He. cbn in He.
    repeat (destruct He as [<- | He];
            [first [ discriminate Hq | injection Hq as <-; cbn; lia ] |]).
    contradiction. }
  destruct (press_then_revert_restores (E := Demo.env "B" true) 1%nat (Demo.app 3 true)
              0 16 Hwf Hin eq_refl eq_refl Hfresh eq_refl eq_refl)
    as (a1 & Hret & _ & _ & Hsw & _ & Hwf2).
  exists a1. split; [exact Hret |]. split; [exact Hwf2 | exact Hsw].
Defined.

Lemma begin_block_failure_off_flags_witness :
  let plain := {| b_ref := 20%nat; b_class := Block_ "switch" |} in
  let a := with_world {| w_things := [(ThePlayer, (0, 0)); (ABlock plain, (32, 16))] |}
             (Demo.app 3 false) in
  wf_world (_world a)
  /\ (ABlock plain, (32, 16)) ∈ w_things (_world a)
  /\ _handle_player_collide_block (E := Demo.env "B" true) plain a = None.
Proof.
  intros plain a.
  assert (Hwf : wf_world (_world a))
    by (unfold wf_world; apply (bool_decide_unpack _); vm_compute; exact I).
  assert (Hin : (ABlock plain, (32, 16)) ∈ w_things (_world a))
    by (apply list_elem_of_In; simpl; tauto).
  split; [exact Hwf |]. split; [exact Hin |].
  apply (begin_block_failure_off_flags (E := Demo.env "B" true) plain (32, 16) a
           ltac:(discriminate) ltac:(discriminate) Hwf Hin).
  reflexivity.
Defined.
